(** * Company valuation engine: a shallow embedding of [main.py]

    The valuation methods of [main.py] (discounted cash flow, price/earnings,
    price/book, EV/EBITDA, comparable multiples), the aggregator
    [perform_valuation], the table of [display_valuation_results] and the
    entry point [main], written as Rocq functions, with the properties the
    specification states about them and further properties of the code.

    Modelling conventions.
    - Numbers.  The program computes with IEEE doubles.  Here a finite number
      is an exact rational ([Q]); rounding, overflow and the sign of zero are
      not modelled.  The theorems therefore state which formula the program
      evaluates, which branch it takes and how its figures compare; none
      states that an emitted value is finite, which in the program depends
      on overflow and on [nan] cells and is never tested by it.
    - Division by zero.  What [x / 0] does is not fixed by [main.py]: when
      the statement cells are numpy scalars it yields [inf], [-inf] or [nan]
      (with a warning), when they are Python floats it raises
      [ZeroDivisionError].  Every division whose divisor may be zero (a rate
      difference, a power of 1 + discount rate, the share count) goes
      through [div], whose behaviour on a zero divisor is the Section
      variable [zero_division]; both behaviours are instances
      ([numpy_division], [python_division]).  The means divide by the length
      of a non-empty list.  Type [num] adds the three non-finite values to
      the rationals.
    - Statements.  A statement (income statement, balance sheet, cash-flow
      statement) maps a line-item name to its row of period values;
      [.loc[name]] raises [KeyError] on a missing name and [.iloc[-1]] raises
      [IndexError] on an empty row.  Cells and profile fields are finite
      numbers.
    - Exceptions.  Code that may raise returns [res A]; a [try]/[except] is
      [try_except]; the [except Exception: return None] that closes each
      method is [catch_all].
    - The outside world.  The two places where the program talks to Yahoo
      Finance ([get_financial_data] and [yf.Ticker(t).info]) are Section
      variables as well. *)

From Stdlib Require Import QArith Qabs Qpower Lqa Lia Ascii.
From stdpp Require Import base option gmap strings list.

Open Scope string_scope.

(** ** Numbers *)

Module Num.

Local Open Scope Q_scope.

Inductive num : Type :=
| Fin (q : Q)
| PInf
| NInf
| NaN.

(** The infinity (or [nan]) whose sign is that of a comparison with zero. *)
Definition inf_of_sign (c : comparison) : num :=
  match c with
  | Gt => PInf
  | Lt => NInf
  | Eq => NaN
  end.

Definition nopp (a : num) : num :=
  match a with
  | Fin q => Fin (- q)
  | PInf => NInf
  | NInf => PInf
  | NaN => NaN
  end.

Definition nadd (a b : num) : num :=
  match a, b with
  | NaN, _ | _, NaN => NaN
  | Fin x, Fin y => Fin (x + y)
  | PInf, NInf | NInf, PInf => NaN
  | PInf, _ | _, PInf => PInf
  | NInf, _ | _, NInf => NInf
  end.

Definition nsub (a b : num) : num :=
  match a, b with
  | Fin x, Fin y => Fin (x - y)
  | _, _ => nadd a (nopp b)
  end.

Definition nmul (a b : num) : num :=
  match a, b with
  | NaN, _ | _, NaN => NaN
  | Fin x, Fin y => Fin (x * y)
  | PInf, Fin y | Fin y, PInf => inf_of_sign (y ?= 0)
  | NInf, Fin y | Fin y, NInf => inf_of_sign (0 ?= y)
  | PInf, PInf | NInf, NInf => PInf
  | PInf, NInf | NInf, PInf => NInf
  end.

(** [a / y] for a divisor [y] that is not zero. *)
Definition ndiv_by (a : num) (y : Q) : num :=
  match a with
  | Fin x => Fin (x / y)
  | PInf => if Qle_bool 0 y then PInf else NInf
  | NInf => if Qle_bool 0 y then NInf else PInf
  | NaN => NaN
  end.

(** Python truthiness of a number: everything but zero ([nan] included). *)
Definition truthy (a : num) : bool :=
  match a with
  | Fin q => negb (Qeq_bool q 0)
  | _ => true
  end.

(** [sum(xs)]: Python starts from [0] and adds from the left. *)
Definition nsum (xs : list num) : num := fold_left nadd xs (Fin 0).

(** [sum(xs) / len(xs)]; the program only takes it of a non-empty list. *)
Definition nmean (xs : list num) : num :=
  ndiv_by (nsum xs) (inject_Z (Z.of_nat (length xs))).

(** Equality of numbers up to the representation of a rational. *)
Definition num_eq (a b : num) : Prop :=
  match a, b with
  | Fin x, Fin y => x == y
  | PInf, PInf | NInf, NInf | NaN, NaN => True
  | _, _ => False
  end.

End Num.
Export Num.

(** Truthiness and sums of the Python floats that never leave [Q]
    (profile fields, peer multiples). *)
Definition Qtruthy (q : Q) : bool := negb (Qeq_bool q 0).
Definition Qpositive (q : Q) : bool := negb (Qle_bool q 0).
Definition Qsum (xs : list Q) : Q := fold_left Qplus xs 0%Q.
Definition Qmean (xs : list Q) : Q :=
  (Qsum xs / inject_Z (Z.of_nat (length xs)))%Q.

(** ** Exceptions *)

Inductive exn : Type :=
  KeyError | IndexError | TypeError | ZeroDivisionError.

Inductive res (A : Type) : Type :=
| Ok (a : A)
| Raise (e : exn).
Arguments Ok {A} a.
Arguments Raise {A} e.

Definition bind {A B : Type} (m : res A) (k : A → res B) : res B :=
  match m with
  | Ok a => k a
  | Raise e => Raise e
  end.

Notation "'let*' x ':=' m 'in' k" := (bind m (fun x => k))
  (at level 10, x pattern, m at level 100, k at level 200).

(** [try: body except: handler] *)
Definition try_except {A : Type} (body handler : res A) : res A :=
  match body with
  | Ok a => Ok a
  | Raise _ => handler
  end.

(** [try: return body except Exception: return None] *)
Definition catch_all {A : Type} (body : res A) : option A :=
  match body with
  | Ok a => Some a
  | Raise _ => None
  end.

(** The two behaviours of a division by zero. *)
Definition numpy_division (a : num) : res num :=
  Ok match a with
     | Fin x => inf_of_sign (x ?= 0)%Q
     | other => other
     end.

Definition python_division (a : num) : res num := Raise ZeroDivisionError.

(** [[f(x) for x in xs]]: the first exception ends the comprehension. *)
Fixpoint sequence {A : Type} (xs : list (res A)) : res (list A) :=
  match xs with
  | [] => Ok []
  | x :: xs' =>
      let* v := x in
      let* vs := sequence xs' in
      Ok (v :: vs)
  end.

(** ** The financial dataset *)

Record financial_data : Type := {
  hist : list Q;                         (* hist['Close'], oldest first *)
  income_stmt : gmap string (list Q);
  balance_sheet : gmap string (list Q);
  cash_flow : gmap string (list Q);
  info : gmap string Q;                  (* numeric profile fields *)
  longName : option string
}.

(** [row.iloc[-1]] *)
Definition iloc_last (row : list Q) : res Q :=
  match last row with
  | Some v => Ok v
  | None => Raise IndexError
  end.

(** [stmt.loc[name]] *)
Definition loc (stmt : gmap string (list Q)) (name : string) : res (list Q) :=
  match stmt !! name with
  | Some row => Ok row
  | None => Raise KeyError
  end.

(** [stmt.loc[name].iloc[-1]] *)
Definition loc_last (stmt : gmap string (list Q)) (name : string) : res Q :=
  let* row := loc stmt name in iloc_last row.

(** [stmt.loc[name].iloc[-1] if name in stmt.index else 0] *)
Definition loc_last_or_zero (stmt : gmap string (list Q)) (name : string) : res Q :=
  match stmt !! name with
  | Some row => iloc_last row
  | None => Ok 0%Q
  end.

(** [info.get('sharesOutstanding', 1)] *)
Definition shares_outstanding (fd : financial_data) : Q :=
  default 1%Q (info fd !! "sharesOutstanding").

(** The coupled lookup that all methods share:
[[
    try:
        cash = balance_sheet.loc['Cash And Cash Equivalents'].iloc[-1]
        debt = balance_sheet.loc['Total Debt'].iloc[-1]
    except:
        cash = ... 'Cash And Short Term Investments' ... else 0
        debt = ... 'Long Term Debt' ... else 0
]]
    Both primary lookups sit in one [try]: when either raises, both values
    come from the handler. *)
Definition cash_and_debt (bs : gmap string (list Q)) : res (Q * Q) :=
  try_except
    (let* cash := loc_last bs "Cash And Cash Equivalents" in
     let* debt := loc_last bs "Total Debt" in
     Ok (cash, debt))
    (let* cash := loc_last_or_zero bs "Cash And Short Term Investments" in
     let* debt := loc_last_or_zero bs "Long Term Debt" in
     Ok (cash, debt)).

(** ** The valuation methods *)

Record dcf_result : Type := {
  dcf_enterprise_value : num;
  dcf_equity_value : num;
  dcf_value_per_share : num;
  projected_cash_flows : list Q;
  present_values : list num;
  terminal_value : num
}.

Record pe_result : Type := {
  pe_eps : num;
  average_pe : Q;
  pe_value_per_share : num
}.

Record pbv_result : Type := {
  pbv_bvps : num;
  average_pbv : Q;
  pbv_value_per_share : num
}.

Record ev_ebitda_result : Type := {
  ev_ebitda : Q;
  average_ev_ebitda : Q;
  ev_enterprise_value : num;
  ev_equity_value : num;
  ev_ebitda_value_per_share : num
}.

Record mm_result : Type := {
  average_metrics : list (string * Q);
  mm_valuations : list (string * num);
  average_valuation : option num
}.

Record report : Type := {
  ticker : string;
  current_price : Q;
  company_name : string;
  methods : list (string * num);        (* in insertion order *)
  Average : option num
}.

(** Operating Cash Flow - |Capital Expenditure|, else Operating Cash Flow. *)
Definition free_cash_flow (cf : gmap string (list Q)) : res Q :=
  try_except
    (let* operating_cash_flow := loc_last cf "Operating Cash Flow" in
     let* capital_expenditures := loc_last cf "Capital Expenditure" in
     Ok (operating_cash_flow - Qabs capital_expenditures)%Q)
    (loc_last cf "Operating Cash Flow").

(** [projected_cash_flows[-1]] *)
Definition list_last (xs : list Q) : res Q :=
  match last xs with
  | Some v => Ok v
  | None => Raise IndexError
  end.

(** EBITDA: EBIT + D&A (income statement, else cash-flow Depreciation);
    else Income Before Tax (+ |Interest Expense| when that row exists). *)
Definition resolve_ebitda (fd : financial_data) : res Q :=
  try_except
    (let* ebit := loc_last (income_stmt fd) "EBIT" in
     let* depreciation :=
       try_except (loc_last (income_stmt fd) "Depreciation And Amortization")
                  (loc_last (cash_flow fd) "Depreciation") in
     Ok (ebit + depreciation)%Q)
    (let* ebitda := loc_last (income_stmt fd) "Income Before Tax" in
     match income_stmt fd !! "Interest Expense" with
     | Some row => let* interest := iloc_last row in Ok (ebitda + Qabs interest)%Q
     | None => Ok ebitda
     end).

(** The defaults of [dcf_valuation]'s signature, which [perform_valuation]
    relies on. *)
Definition default_growth_rate : Q := 0.05.
Definition default_discount_rate : Q := 0.1.
Definition default_terminal_growth_rate : Q := 0.02.
Definition default_years : nat := 5.

(** Python dicts used as ordered maps: [d[k] = v] keeps the position of a
    key that is already there. *)
Fixpoint dict_get {A : Type} (k : string) (d : list (string * A)) : option A :=
  match d with
  | [] => None
  | (k', v) :: d' => if decide (k = k') then Some v else dict_get k d'
  end.

Fixpoint dict_set {A : Type} (k : string) (v : A) (d : list (string * A))
  : list (string * A) :=
  match d with
  | [] => [(k, v)]
  | (k', v') :: d' =>
      if decide (k = k') then (k, v) :: d' else (k', v') :: dict_set k v d'
  end.

Section World.

(** What a division by zero evaluates to (see the header). *)
Variable zero_division : num → res num.
(** [get_financial_data]: the dataset, or [None] when the fetch raised. *)
Variable get_financial_data : string → option financial_data.
(** [yf.Ticker(t).info]: the peer's profile, or an exception. *)
Variable ticker_info : string → res (gmap string Q).

(** [a / y] *)
Definition div (a : num) (y : Q) : res num :=
  if Qeq_bool y 0 then zero_division a else Ok (ndiv_by a y).

(** *** Discounted cash flow *)

Definition dcf_body (financial_data : financial_data)
    (growth_rate discount_rate terminal_growth_rate : Q) (years : nat)
  : res dcf_result :=
  let* fcf0 := free_cash_flow (cash_flow financial_data) in
  let projected :=
    map (λ i : nat, (fcf0 * (1 + growth_rate) ^ Z.of_nat i)%Q) (seq 1 years) in
  let* last_flow := list_last projected in
  let* terminal :=
    div (Fin (last_flow * (1 + terminal_growth_rate))%Q)
        (discount_rate - terminal_growth_rate)%Q in
  let* pvs :=
    sequence
      (imap (λ (i : nat) (cf : Q),
               div (Fin cf) ((1 + discount_rate) ^ Z.of_nat (i + 1))%Q)
            projected) in
  let* present_value_terminal :=
    div terminal ((1 + discount_rate) ^ Z.of_nat years)%Q in
  let enterprise_value := nadd (nsum pvs) present_value_terminal in
  let* (cash, debt) := cash_and_debt (balance_sheet financial_data) in
  let equity_value := nsub (nadd enterprise_value (Fin cash)) (Fin debt) in
  let shares := shares_outstanding financial_data in
  let* per_share := div equity_value shares in
  Ok {| dcf_enterprise_value := enterprise_value;
        dcf_equity_value := equity_value;
        dcf_value_per_share := per_share;
        projected_cash_flows := projected;
        present_values := pvs;
        terminal_value := terminal |}.

Definition dcf_valuation (financial_data : financial_data)
    (growth_rate discount_rate terminal_growth_rate : Q) (years : nat)
  : option dcf_result :=
  catch_all (dcf_body financial_data growth_rate discount_rate
               terminal_growth_rate years).

Definition dcf_valuation_default (financial_data : financial_data)
  : option dcf_result :=
  dcf_valuation financial_data default_growth_rate default_discount_rate
    default_terminal_growth_rate default_years.

(** *** Ratio-multiple methods *)

(** EPS: profile [trailingEPS] unless it is falsy ([None] or [0]), else
    Net Income / shares. *)
Definition eps_from_net_income (fd : financial_data) : res num :=
  let* net_income := loc_last (income_stmt fd) "Net Income" in
  div (Fin net_income) (shares_outstanding fd).

Definition resolve_eps (fd : financial_data) : res num :=
  match info fd !! "trailingEPS" with
  | Some eps => if Qtruthy eps then Ok (Fin eps) else eps_from_net_income fd
  | None => eps_from_net_income fd
  end.

(** Book value per share: profile [bookValue] unless it is falsy, else
    Total Stockholder Equity / shares. *)
Definition bvps_from_equity (fd : financial_data) : res num :=
  let* total_equity := loc_last (balance_sheet fd) "Total Stockholder Equity" in
  div (Fin total_equity) (shares_outstanding fd).

Definition resolve_bvps (fd : financial_data) : res num :=
  match info fd !! "bookValue" with
  | Some bvps => if Qtruthy bvps then Ok (Fin bvps) else bvps_from_equity fd
  | None => bvps_from_equity fd
  end.

(** Enterprise value to per-share value, as EV/EBITDA and the comparable
    method do it: add cash, subtract debt, divide by the share count. *)
Definition per_share_of_ev (fd : financial_data) (enterprise_value : num)
  : res (num * num) :=
  let* (cash, debt) := cash_and_debt (balance_sheet fd) in
  let equity_value := nsub (nadd enterprise_value (Fin cash)) (Fin debt) in
  let* per_share := div equity_value (shares_outstanding fd) in
  Ok (equity_value, per_share).

(** One round of the peer loop:
[[
    try:
        ratio = yf.Ticker(ticker).info.get(key)
        if ratio and ratio > 0: ratios.append(ratio)
    except: continue
]] *)
Definition peer_ratio (key ticker : string) : option Q :=
  match ticker_info ticker with
  | Ok peer_info =>
      match peer_info !! key with
      | Some ratio => if Qtruthy ratio && Qpositive ratio then Some ratio else None
      | None => None
      end
  | Raise _ => None
  end.

Definition peer_ratios (key : string) (target_companies : list string) : list Q :=
  omap (peer_ratio key) target_companies.

(** The multiple a ratio method applies: the peers' mean when peers were
    given and at least one ratio was collected, else the subject's own
    [info.get(key, default)]. *)
Definition average_multiple (key : string) (dflt : Q) (fd : financial_data)
    (target_companies : option (list string)) : Q :=
  match target_companies with
  | Some ((_ :: _) as peers) =>
      match peer_ratios key peers with
      | [] => default dflt (info fd !! key)
      | ratios => Qmean ratios
      end
  | _ => default dflt (info fd !! key)
  end.

Definition pe_valuation (fd : financial_data)
    (target_companies : option (list string)) : option pe_result :=
  catch_all
    (let* eps := resolve_eps fd in
     let average_pe := average_multiple "trailingPE" 15 fd target_companies in
     Ok {| pe_eps := eps;
           average_pe := average_pe;
           pe_value_per_share := nmul eps (Fin average_pe) |}).

Definition pbv_valuation (fd : financial_data)
    (target_companies : option (list string)) : option pbv_result :=
  catch_all
    (let* bvps := resolve_bvps fd in
     let average_pbv := average_multiple "priceToBook" 2 fd target_companies in
     Ok {| pbv_bvps := bvps;
           average_pbv := average_pbv;
           pbv_value_per_share := nmul bvps (Fin average_pbv) |}).

Definition ev_ebitda_valuation (fd : financial_data)
    (target_companies : option (list string)) : option ev_ebitda_result :=
  catch_all
    (let* ebitda := resolve_ebitda fd in
     let average_ev_ebitda :=
       average_multiple "enterpriseToEbitda" 10 fd target_companies in
     let enterprise_value := Fin (ebitda * average_ev_ebitda)%Q in
     let* (equity_value, per_share) := per_share_of_ev fd enterprise_value in
     Ok {| ev_ebitda := ebitda;
           average_ev_ebitda := average_ev_ebitda;
           ev_enterprise_value := enterprise_value;
           ev_equity_value := equity_value;
           ev_ebitda_value_per_share := per_share |}).

(** *** Comparable multiples *)

(** [comparable_data]: the peers whose fetch succeeded, keyed by ticker. *)
Definition comparable_data (target_companies : list string)
  : list (string * financial_data) :=
  fold_left
    (λ acc ticker,
       match get_financial_data ticker with
       | Some data => dict_set ticker data acc
       | None => acc
       end)
    target_companies [].

(** The values one metric collects over the fetched peers. *)
Definition metric_values (key : string)
    (peers : list (string * financial_data)) : list Q :=
  omap (λ p : string * financial_data,
          match info p.2 !! key with
          | Some ratio =>
              if Qtruthy ratio && Qpositive ratio then Some ratio else None
          | None => None
          end)
       peers.

(** [average_metrics[metric] = sum(values) / len(values)], when [values]. *)
Definition add_average (metric key : string)
    (peers : list (string * financial_data)) (acc : list (string * Q))
  : list (string * Q) :=
  match metric_values key peers with
  | [] => acc
  | values => dict_set metric (Qmean values) acc
  end.

(** One of the four blocks
[[
    if metric in average_metrics:
        try: valuations[metric] = ...
        except: pass
]] *)
Definition add_valuation (metric : string) (averages : list (string * Q))
    (implied : Q → res num) (acc : list (string * num))
  : list (string * num) :=
  match dict_get metric averages with
  | Some multiple =>
      match implied multiple with
      | Ok v => dict_set metric v acc
      | Raise _ => acc
      end
  | None => acc
  end.

(** [target_data[...]] raises [TypeError] when the subject's fetch failed. *)
Definition subscript (target_data : option financial_data)
  : res financial_data :=
  match target_data with
  | Some fd => Ok fd
  | None => Raise TypeError
  end.

(** The four implied per-share values of the subject. *)
Definition implied_pe (target_data : option financial_data) (multiple : Q)
  : res num :=
  let* fd := subscript target_data in
  let* eps := resolve_eps fd in
  Ok (nmul eps (Fin multiple)).

Definition implied_pbv (target_data : option financial_data) (multiple : Q)
  : res num :=
  let* fd := subscript target_data in
  let* bvps := resolve_bvps fd in
  Ok (nmul bvps (Fin multiple)).

Definition implied_ev_ebitda (target_data : option financial_data)
    (multiple : Q) : res num :=
  let* fd := subscript target_data in
  let* ebitda := resolve_ebitda fd in
  let* (_, per_share) := per_share_of_ev fd (Fin (ebitda * multiple)%Q) in
  Ok per_share.

Definition implied_ev_sales (target_data : option financial_data)
    (multiple : Q) : res num :=
  let* fd := subscript target_data in
  let* revenue := loc_last (income_stmt fd) "Total Revenue" in
  let* (_, per_share) := per_share_of_ev fd (Fin (revenue * multiple)%Q) in
  Ok per_share.

(** [average_metrics], filled in the order of the [metrics] dict. *)
Definition peer_averages (peers : list (string * financial_data))
  : list (string * Q) :=
  add_average "EV/Sales" "enterpriseToRevenue" peers
    (add_average "EV/EBITDA" "enterpriseToEbitda" peers
       (add_average "P/BV" "priceToBook" peers
          (add_average "P/E" "trailingPE" peers []))).

(** [valuations], filled by the four blocks in program order. *)
Definition implied_valuations (target_data : option financial_data)
    (averages : list (string * Q)) : list (string * num) :=
  add_valuation "EV/Sales" averages (implied_ev_sales target_data)
    (add_valuation "EV/EBITDA" averages (implied_ev_ebitda target_data)
       (add_valuation "P/BV" averages (implied_pbv target_data)
          (add_valuation "P/E" averages (implied_pe target_data) []))).

Definition market_multiples_valuation (ticker_symbol : string)
    (target_companies : list string) : option mm_result :=
  catch_all
    (let target_data := get_financial_data ticker_symbol in
     let averages := peer_averages (comparable_data target_companies) in
     let valuations := implied_valuations target_data averages in
     Ok {| average_metrics := averages;
           mm_valuations := valuations;
           average_valuation :=
             match valuations with
             | [] => None
             | _ => Some (nmean (map snd valuations))
             end |}).

(** ** The aggregator *)

(** [if result: valuations[name] = result[field]] *)
Definition record_method {R : Type} (name : string) (result : option R)
    (value : R → num) (valuations : list (string * num))
  : list (string * num) :=
  match result with
  | Some r => dict_set name (value r) valuations
  | None => valuations
  end.

(** [if mm_result and mm_result['average_valuation']:] a mean that is [None]
    or zero is falsy. *)
Definition record_market_multiples (ticker_symbol : string)
    (target_companies : option (list string))
    (valuations : list (string * num)) : list (string * num) :=
  match target_companies with
  | Some ((_ :: _) as peers) =>
      match market_multiples_valuation ticker_symbol peers with
      | Some mm =>
          match average_valuation mm with
          | Some a =>
              if truthy a then dict_set "Market Multiples" a valuations
              else valuations
          | None => valuations
          end
      | None => valuations
      end
  | _ => valuations
  end.

(** Current price: profile [currentPrice] unless falsy, else the last
    close of the price history; that lookup is not inside any [try]. *)
Definition determine_current_price (fd : financial_data) : res Q :=
  match info fd !! "currentPrice" with
  | Some price => if Qtruthy price then Ok price else iloc_last (hist fd)
  | None => iloc_last (hist fd)
  end.

Definition method_valuations (fd : financial_data) (ticker_symbol : string)
    (target_companies : option (list string)) : list (string * num) :=
  record_market_multiples ticker_symbol target_companies
    (record_method "EV/EBITDA" (ev_ebitda_valuation fd target_companies)
       ev_ebitda_value_per_share
       (record_method "P/BV" (pbv_valuation fd target_companies)
          pbv_value_per_share
          (record_method "P/E" (pe_valuation fd target_companies)
             pe_value_per_share
             (record_method "DCF" (dcf_valuation_default fd)
                dcf_value_per_share [])))).

Definition perform_valuation (ticker_symbol : string)
    (target_companies : option (list string)) : res (option report) :=
  match get_financial_data ticker_symbol with
  | None => Ok None
  | Some fd =>
      let* price := determine_current_price fd in
      let valuations := method_valuations fd ticker_symbol target_companies in
      let valuation_methods := map snd valuations in
      Ok (Some {| ticker := ticker_symbol;
                  current_price := price;
                  company_name := default ticker_symbol (longName fd);
                  methods := valuations;
                  Average :=
                    match valuation_methods with
                    | [] => None
                    | _ => Some (nmean valuation_methods)
                    end |})
  end.

End World.

(** ** The reference computation of the specification (section 4.2)

    Written from the specification's words, in real (here: rational)
    arithmetic, to be compared with [dcf_valuation]: no lists, one closed
    form per figure.  It is meaningful where no divisor is zero. *)

Module Reference.

Local Open Scope Q_scope.

(** Projected flow of year [i]: [f·(1+growthRate)^i]. *)
Definition projected_flow (f g : Q) (i : nat) : Q :=
  f * (1 + g) ^ Z.of_nat i.

(** Terminal value: last projected flow × (1+terminalGrowthRate) /
    (discountRate − terminalGrowthRate). *)
Definition terminal (f g dr tg : Q) (years : nat) : Q :=
  projected_flow f g years * (1 + tg) / (dr - tg).

(** Sum over [i = 1..n] of the flow of year [i] discounted by
    [(1+discountRate)^i]. *)
Fixpoint discounted_flows (f g dr : Q) (n : nat) : Q :=
  match n with
  | O => 0
  | S k =>
      discounted_flows f g dr k
      + projected_flow f g (S k) / (1 + dr) ^ Z.of_nat (S k)
  end.

(** Enterprise value: discounted flows plus the terminal value discounted
    by [(1+discountRate)^years]. *)
Definition enterprise_value (f g dr tg : Q) (years : nat) : Q :=
  discounted_flows f g dr years
  + terminal f g dr tg years / (1 + dr) ^ Z.of_nat years.

Definition equity_value (f g dr tg : Q) (years : nat) (cash debt : Q) : Q :=
  enterprise_value f g dr tg years + cash - debt.

Definition per_share (f g dr tg : Q) (years : nat) (cash debt shares : Q)
  : Q :=
  equity_value f g dr tg years cash debt / shares.

End Reference.

(** ** Vocabulary of the specification *)

#[global] Instance Qlt_decision (x y : Q) : Decision (x < y)%Q.
Proof.
  destruct (Qlt_le_dec x y) as [H|H]; [left; exact H|].
  right. by apply Qle_not_lt.
Defined.

(** A peer's profile field, when the peer's profile can be fetched. *)
Definition peer_field (ticker_info : string → res (gmap string Q))
    (key ticker : string) : option Q :=
  match ticker_info ticker with
  | Ok peer_info => peer_info !! key
  | Raise _ => None
  end.

(** The peers' strictly positive multiples, peer by peer. *)
Definition positive_peer_multiples (ticker_info : string → res (gmap string Q))
    (key : string) (peers : list string) : list Q :=
  filter (λ q, 0 < q)%Q (omap (peer_field ticker_info key) peers).

(** A profile field that Python treats as false: absent, or zero. *)
Definition falsy (field : option Q) : Prop :=
  field = None ∨ ∃ q, field = Some q ∧ (q == 0)%Q.

(** A method's entry in the report: present when the method passed the
    aggregator's test. *)
Definition entry (name : string) (value : option num) : list (string * num) :=
  match value with
  | Some v => [(name, v)]
  | None => []
  end.

(** The value the aggregator accepts from the comparable-multiples method:
    it is only asked when peers were given, and its mean must be truthy. *)
Definition accepted_market_multiples (zero_division : num → res num)
    (get_financial_data : string → option financial_data)
    (ticker_symbol : string) (target_companies : option (list string))
  : option num :=
  match target_companies with
  | Some ((_ :: _) as peers) =>
      match market_multiples_valuation zero_division get_financial_data
              ticker_symbol peers
      with
      | Some mm =>
          match average_valuation mm with
          | Some a => if truthy a then Some a else None
          | None => None
          end
      | None => None
      end
  | _ => None
  end.

(** ** Example datasets *)

Module Examples.

(** The end-to-end example of the specification. *)
Definition spec_example : financial_data :=
  {| hist := [];
     income_stmt := ∅;
     balance_sheet :=
       list_to_map [("Cash And Cash Equivalents", [500%Q]);
                    ("Total Debt", [300%Q])];
     cash_flow :=
       list_to_map [("Operating Cash Flow", [1000%Q]);
                    ("Capital Expenditure", [(-200)%Q])];
     info := {[ "sharesOutstanding" := 100%Q ]};
     longName := None |}.

(** The same company with no share count in its profile. *)
Definition no_share_count : financial_data :=
  {| hist := [];
     income_stmt := ∅;
     balance_sheet := balance_sheet spec_example;
     cash_flow := cash_flow spec_example;
     info := ∅;
     longName := None |}.

(** The same company with a share count of zero. *)
Definition zero_share_count : financial_data :=
  {| hist := [];
     income_stmt := ∅;
     balance_sheet := balance_sheet spec_example;
     cash_flow := cash_flow spec_example;
     info := {[ "sharesOutstanding" := 0%Q ]};
     longName := None |}.


(** A balance sheet with cash but Long Term Debt instead of Total Debt. *)
Definition cash_without_total_debt : gmap string (list Q) :=
  list_to_map [("Cash And Cash Equivalents", [500%Q]);
               ("Long Term Debt", [300%Q])].

(** Profiles for the P/E examples. *)
Definition eps5 : financial_data :=
  {| hist := []; income_stmt := ∅; balance_sheet := ∅; cash_flow := ∅;
     info := {[ "trailingEPS" := 5%Q ]};
     longName := None |}.

Definition eps5_pe0 : financial_data :=
  {| hist := []; income_stmt := ∅; balance_sheet := ∅; cash_flow := ∅;
     info := list_to_map [("trailingEPS", 5%Q); ("trailingPE", 0%Q)];
     longName := None |}.

(** A ticker that Yahoo knows nothing about: empty history, empty profile. *)
Definition unknown_ticker : financial_data :=
  {| hist := []; income_stmt := ∅; balance_sheet := ∅; cash_flow := ∅;
     info := ∅; longName := None |}.

(** A company that broke even (Net Income 0), with book value 10 a share. *)
Definition break_even : financial_data :=
  {| hist := [50%Q];
     income_stmt := {[ "Net Income" := [0%Q] ]};
     balance_sheet := ∅;
     cash_flow := ∅;
     info := list_to_map [("sharesOutstanding", 100%Q); ("bookValue", 10%Q)];
     longName := None |}.

(** Its one peer, trading at 20 times earnings. *)
Definition peer : financial_data :=
  {| hist := [10%Q]; income_stmt := ∅; balance_sheet := ∅; cash_flow := ∅;
     info := {[ "trailingPE" := 20%Q ]};
     longName := None |}.

Definition no_data : string → option financial_data := λ _, None.
Definition no_info : string → res (gmap string Q) := λ _, Raise KeyError.

Definition only_unknown (t : string) : option financial_data :=
  if decide (t = "XXXX") then Some unknown_ticker else None.

Definition break_even_data (t : string) : option financial_data :=
  if decide (t = "SUBJ") then Some break_even
  else if decide (t = "PEER") then Some peer
  else None.

Definition break_even_info (t : string) : res (gmap string Q) :=
  match break_even_data t with
  | Some fd => Ok (info fd)
  | None => Raise KeyError
  end.

(** A profile whose current price is 0, with a price history. *)
Definition zero_price : financial_data :=
  {| hist := [41%Q; 42%Q]; income_stmt := ∅; balance_sheet := ∅;
     cash_flow := ∅;
     info := {[ "currentPrice" := 0%Q ]};
     longName := None |}.

Definition only_zero_price (t : string) : option financial_data :=
  if decide (t = "ZERO") then Some zero_price else None.

End Examples.

(** ** Presentation and entry point

    [display_valuation_results] up to the figures it derives (the table rows
    and the bar colours; formatting and plotting are not modelled), and
    [main] as a function of the lines the user types.  A string is a sequence
    of characters with code points below 256. *)

Module Text.

Local Open Scope nat_scope.

(** [str.isspace] on one character: tab to carriage return, the four
    separators 28..31, space, NEL and the no-break space. *)
Definition is_space (c : Ascii.ascii) : bool :=
  let n := Ascii.nat_of_ascii c in
  ((9 <=? n) && (n <=? 13)) || ((28 <=? n) && (n <=? 32))
  || (n =? 133) || (n =? 160).

(** [s.lstrip()] *)
Fixpoint lstrip (s : string) : string :=
  match s with
  | EmptyString => EmptyString
  | String c s' => if is_space c then lstrip s' else s
  end.

(** [s.rstrip()] *)
Fixpoint rstrip (s : string) : string :=
  match s with
  | EmptyString => EmptyString
  | String c s' =>
      match rstrip s' with
      | EmptyString => if is_space c then EmptyString else String c EmptyString
      | rest => String c rest
      end
  end.

(** [s.strip()] *)
Definition strip (s : string) : string := rstrip (lstrip s).

(** [s.split(sep)] for a one-character separator. *)
Fixpoint split (sep : Ascii.ascii) (s : string) : list string :=
  match s with
  | EmptyString => [EmptyString]
  | String c s' =>
      if Ascii.eqb c sep then EmptyString :: split sep s'
      else match split sep s' with
           | [] => [String c EmptyString]
           | piece :: pieces => String c piece :: pieces
           end
  end.

(** [sep.join(pieces)] *)
Fixpoint join (sep : Ascii.ascii) (pieces : list string) : string :=
  match pieces with
  | [] => EmptyString
  | [piece] => piece
  | piece :: pieces' => (piece ++ String sep (join sep pieces'))%string
  end.

(** [c.lower()]: the capital letters A..Z and the accented capitals
    192..222 (without the multiplication sign 215) move up by 32. *)
Definition lower_char (c : Ascii.ascii) : Ascii.ascii :=
  let n := Ascii.nat_of_ascii c in
  if ((65 <=? n) && (n <=? 90))
     || ((192 <=? n) && (n <=? 222) && negb (n =? 215))
  then Ascii.ascii_of_nat (n + 32)
  else c.

(** [s.lower()] *)
Fixpoint lower (s : string) : string :=
  match s with
  | EmptyString => EmptyString
  | String c s' => String (lower_char c) (lower s')
  end.

End Text.

(** [[ticker.strip() for ticker in comparable_input.split(',')]] *)
Definition parse_peers (comparable_input : string) : list string :=
  map Text.strip (Text.split ","%char comparable_input).

(** The arguments [main] passes to [perform_valuation]: the ticker as typed,
    and the peers when the answer, lower-cased, is ['y']. *)
Definition main_request (ticker_symbol answer comparable_input : string)
  : string * option (list string) :=
  let use_comparable := String.eqb (Text.lower answer) "y" in
  (ticker_symbol,
   if use_comparable then Some (parse_peers comparable_input) else None).

Inductive status : Type := UNDERVALUED | OVERVALUED.
Inductive colour : Type := green | red.

(** [a > b] on numbers; a comparison with [nan] is false. *)
Definition ngt (a b : num) : bool :=
  match a, b with
  | NaN, _ | _, NaN => false
  | Fin x, Fin y => negb (Qle_bool x y)
  | PInf, (Fin _ | NInf) => true
  | PInf, PInf => false
  | Fin _, NInf => true
  | Fin _, PInf => false
  | NInf, _ => false
  end.

Record display_row : Type := {
  row_method : string;
  row_value : num;
  row_diff : num;
  row_status : status
}.

Record display : Type := {
  rows : list display_row;
  colours : list colour
}.

(** The keys [display_valuation_results] walks through: every key of the
    report but the three metadata keys, so the methods and then 'Average'. *)
Definition displayed_items (rep : report) : list (string * num) :=
  (methods rep
   ++ match Average rep with
      | Some a => [("Average", a)]
      | None => []
      end)%list.

(** What ends up on the screen: the table of a report, the message of
    [display_valuation_results] that there are no results, or the message
    of [main] that no valuation could be made. *)
Inductive shown : Type :=
| Table (d : display)
| NoResults
| CannotValuate.

Section Presentation.

Variable zero_division : num → res num.
Variable get_financial_data : string → option financial_data.
Variable ticker_info : string → res (gmap string Q).

(** One round of the printing loop:
[[
    diff = ((value / valuations['current_price']) - 1) * 100
    status = "UNDERVALUED" if diff > 0 else "OVERVALUED"
]] *)
Definition make_row (price : Q) (item : string * num) : res display_row :=
  let* quotient := div zero_division item.2 price in
  let diff := nmul (nsub quotient (Fin 1)) (Fin 100) in
  Ok {| row_method := item.1;
        row_value := item.2;
        row_diff := diff;
        row_status := if ngt diff (Fin 0) then UNDERVALUED else OVERVALUED |}.

(** ['green' if v > valuations['current_price'] else 'red'] *)
Definition bar_colour (price : Q) (item : string * num) : colour :=
  if ngt item.2 (Fin price) then green else red.

(** [display_valuation_results(valuations)]: nothing to show for a falsy
    argument; else the rows of the table, then the colours of the bars. *)
Definition display_valuation_results (valuations : option report)
  : res shown :=
  match valuations with
  | None => Ok NoResults
  | Some rep =>
      let items := displayed_items rep in
      let* table := sequence (map (make_row (current_price rep)) items) in
      Ok (Table {| rows := table;
                   colours := map (bar_colour (current_price rep)) items |})
  end.

(** [main()], given the lines typed at its three prompts (the third is only
    asked for after a yes). *)
Definition main (ticker_symbol answer comparable_input : string)
  : res shown :=
  let request := main_request ticker_symbol answer comparable_input in
  let* valuations :=
    perform_valuation zero_division get_financial_data ticker_info
      request.1 request.2 in
  match valuations with
  | Some rep => display_valuation_results (Some rep)
  | None => Ok CannotValuate
  end.

End Presentation.

(** ** Vocabulary for the further properties *)

Module TextFacts.





End TextFacts.

(** The fixed order in which [perform_valuation] files its methods. *)
Definition method_names : list string :=
  ["DCF"; "P/E"; "P/BV"; "EV/EBITDA"; "Market Multiples"].

(** The four multiples of the comparable method. *)
Definition metric_names : list string :=
  ["P/E"; "P/BV"; "EV/EBITDA"; "EV/Sales"].

(** The entry a metric contributes to a dict: there when it has a value. *)
Definition item {A : Type} (name : string) (value : option A)
  : list (string * A) :=
  match value with
  | Some v => [(name, v)]
  | None => []
  end.

(** The mean of the collected values, when there are any. *)
Definition average_of (values : list Q) : option Q :=
  match values with
  | [] => None
  | _ => Some (Qmean values)
  end.

Module MoreExamples.

(** An operating company: EBIT 400, depreciation only in the cash-flow
    statement, cash 500, debt 300, 100 shares. *)
Definition operating : financial_data :=
  {| hist := [12%Q];
     income_stmt := {[ "EBIT" := [400%Q] ]};
     balance_sheet := balance_sheet Examples.spec_example;
     cash_flow :=
       list_to_map [("Operating Cash Flow", [1000%Q]);
                    ("Capital Expenditure", [200%Q]);
                    ("Depreciation", [100%Q])];
     info := list_to_map [("sharesOutstanding", 100%Q);
                          ("bookValue", 8%Q);
                          ("currentPrice", 12%Q)];
     longName := Some "Operating Co" |}.

(** A world with the operating company and two peers, one of which cannot
    be fetched. *)
Definition peer_a : financial_data :=
  {| hist := [10%Q]; income_stmt := ∅; balance_sheet := ∅; cash_flow := ∅;
     info := list_to_map [("trailingPE", 20%Q); ("priceToBook", 3%Q);
                          ("enterpriseToEbitda", 8%Q)];
     longName := None |}.

Definition world_data (t : string) : option financial_data :=
  if decide (t = "OPCO") then Some operating
  else if decide (t = "PEERA") then Some peer_a
  else None.

Definition world_info (t : string) : res (gmap string Q) :=
  match world_data t with
  | Some fd => Ok (info fd)
  | None => Raise KeyError
  end.

(** EBIT is reported but no depreciation figure is: EBITDA comes from
    Income Before Tax 300 and Interest Expense -50. *)
Definition pre_tax : financial_data :=
  {| hist := [12%Q];
     income_stmt :=
       list_to_map [("EBIT", [400%Q]);
                    ("Income Before Tax", [300%Q]);
                    ("Interest Expense", [(-50)%Q])];
     balance_sheet := balance_sheet Examples.spec_example;
     cash_flow := cash_flow Examples.spec_example;
     info := info Examples.spec_example;
     longName := None |}.

(** The operating company with 250 more cash. *)
Definition operating_richer : financial_data :=
  {| hist := hist operating;
     income_stmt := income_stmt operating;
     balance_sheet :=
       list_to_map [("Cash And Cash Equivalents", [750%Q]);
                    ("Total Debt", [300%Q])];
     cash_flow := cash_flow operating;
     info := info operating;
     longName := longName operating |}.

(** The profiles of five peers: trailing P/E 10 and 30 and price-to-book 1
    and 4 for the first two, a negative P/E and a zero price-to-book, a
    profile with neither field, and (every other ticker) a profile that
    cannot be fetched. *)
Definition peers_info (t : string) : res (gmap string Q) :=
  if decide (t = "AAA")
  then Ok (list_to_map [("trailingPE", 10%Q); ("priceToBook", 1%Q)])
  else if decide (t = "BBB")
  then Ok (list_to_map [("trailingPE", 30%Q); ("priceToBook", 4%Q)])
  else if decide (t = "NEG")
  then Ok (list_to_map [("trailingPE", (-4)%Q); ("priceToBook", 0%Q)])
  else if decide (t = "BARE") then Ok ∅
  else Raise KeyError.

Definition five_peers : list string := ["AAA"; "NEG"; "GONE"; "BBB"; "BARE"].

(** A company with trailing EPS 5, in the same world. *)
Definition earner : financial_data :=
  {| hist := [90%Q]; income_stmt := ∅; balance_sheet := ∅; cash_flow := ∅;
     info := list_to_map [("trailingEPS", 5%Q); ("sharesOutstanding", 100%Q)];
     longName := None |}.

Definition earner_data (t : string) : option financial_data :=
  if decide (t = "EARN") then Some earner else world_data t.

Definition earner_info (t : string) : res (gmap string Q) :=
  match earner_data t with
  | Some fd => Ok (info fd)
  | None => Raise KeyError
  end.

End MoreExamples.

(** * Properties *)

(** ** Arithmetic on [num] *)

Section NumFacts.

Local Open Scope Q_scope.

Variable zero_division : num → res num.

(** A division by a non-zero divisor does not depend on [zero_division]. *)
Lemma div_nonzero (a : num) (y : Q) :
  ¬ y == 0 → div zero_division a y = Ok (ndiv_by a y).
Proof.
  intros Hy. unfold div. destruct (Qeq_bool y 0) eqn:E; [|reflexivity].
  apply Qeq_bool_eq in E. contradiction.
Qed.

Lemma div_Fin (x y : Q) :
  ¬ y == 0 → div zero_division (Fin x) y = Ok (Fin (x / y)).
Proof. apply div_nonzero. Qed.

Lemma div_zero (a : num) (y : Q) :
  y == 0 → div zero_division a y = zero_division a.
Proof. intros Hy. unfold div. by rewrite (Qeq_eq_bool _ _ Hy). Qed.

(** [a > b] on finite numbers. *)
Lemma ngt_Fin (x y : Q) : ngt (Fin x) (Fin y) = true ↔ y < x.
Proof.
  cbn [ngt]. rewrite negb_true_iff. split.
  - intros H. apply Qnot_le_lt. intros Hle.
    apply Qle_bool_iff in Hle. congruence.
  - intros H. destruct (Qle_bool x y) eqn:E; [|done].
    apply Qle_bool_iff in E. lra.
Qed.

(** A comprehension none of whose elements raises. *)
Lemma sequence_imap_Ok {A B : Type} (F : nat → A → res B) (G : nat → A → B)
    (xs : list A) :
  (∀ i x, F i x = Ok (G i x)) → sequence (imap F xs) = Ok (imap G xs).
Proof.
  revert F G. induction xs as [|x xs IH]; intros F G HFG; [reflexivity|].
  cbn [imap sequence]. rewrite HFG. cbn [bind].
  rewrite (IH (F ∘ S) (G ∘ S)) by (intros; apply HFG). reflexivity.
Qed.

End NumFacts.

(** ** Discounted cash flow against the reference computation *)

Section DCF.

Local Open Scope Q_scope.

Variable zero_division : num → res num.
Variables (g dr tg : Q).

(** The list of projected flows ends with the flow of the last year. *)
Lemma last_projected (f : Q) (years : nat) :
  (1 ≤ years)%nat →
  list_last (map (λ i : nat, f * (1 + g) ^ Z.of_nat i) (seq 1 years))
  = Ok (Reference.projected_flow f g years).
Proof.
  intros Hy. destruct years as [|n]; [lia|].
  unfold list_last. rewrite seq_S, map_app. simpl map at 2.
  by rewrite last_snoc.
Qed.

(** Summing the list of present values is the reference's sum over the
    years. *)
Lemma sum_present_values (f : Q) (years : nat) :
  nsum (imap (λ (i : nat) (cf : Q), Fin (cf / (1 + dr) ^ Z.of_nat (i + 1)))
             (map (λ i : nat, f * (1 + g) ^ Z.of_nat i) (seq 1 years)))
  = Fin (Reference.discounted_flows f g dr years).
Proof.
  unfold nsum. induction years as [|n IH]; [reflexivity|].
  rewrite seq_S, map_app, imap_app, fold_left_app, IH.
  rewrite length_map, length_seq. simpl.
  replace (n + 0 + 1)%nat with (S n) by lia. reflexivity.
Qed.

(** What [dcf_valuation] returns once its lookups succeed and no divisor is
    zero: the figures of the reference computation. *)
Lemma dcf_valuation_resolved (fd : financial_data) (years : nat)
    (f cash debt : Q) :
  free_cash_flow (cash_flow fd) = Ok f →
  cash_and_debt (balance_sheet fd) = Ok (cash, debt) →
  (1 ≤ years)%nat →
  ¬ dr == tg → ¬ 1 + dr == 0 → ¬ shares_outstanding fd == 0 →
  ∃ r, dcf_valuation zero_division fd g dr tg years = Some r
       ∧ projected_cash_flows r
         = map (Reference.projected_flow f g) (seq 1 years)
       ∧ terminal_value r = Fin (Reference.terminal f g dr tg years)
       ∧ dcf_enterprise_value r
         = Fin (Reference.enterprise_value f g dr tg years)
       ∧ dcf_equity_value r
         = Fin (Reference.equity_value f g dr tg years cash debt)
       ∧ dcf_value_per_share r
         = Fin (Reference.per_share f g dr tg years cash debt
                  (shares_outstanding fd)).
Proof.
  intros Hf Hcd Hy Hne Hdr Hs. unfold dcf_valuation, dcf_body.
  rewrite Hf. cbn [bind]. rewrite last_projected by done. cbn [bind].
  rewrite div_Fin by (intros H; apply Hne; lra). cbn [bind].
  rewrite (sequence_imap_Ok _
             (λ (i : nat) (cf : Q), Fin (cf / (1 + dr) ^ Z.of_nat (i + 1))))
    by (intros i x; apply div_Fin; by apply Qpower_not_0).
  cbn [bind]. rewrite div_Fin by by apply Qpower_not_0. cbn [bind].
  rewrite Hcd. cbn [bind]. rewrite sum_present_values. cbn [nadd nsub].
  rewrite div_Fin by done. cbn [bind catch_all].
  eexists. split; [reflexivity|].
  cbn [projected_cash_flows terminal_value dcf_enterprise_value
       dcf_equity_value dcf_value_per_share].
  done.
Qed.

(** Without a zero divisor [dcf_valuation] is unavailable exactly when a
    lookup raises or there is no year to project. *)
Lemma dcf_valuation_None_iff (fd : financial_data) (years : nat) :
  ¬ dr == tg → ¬ 1 + dr == 0 → ¬ shares_outstanding fd == 0 →
  dcf_valuation zero_division fd g dr tg years = None
  ↔ (∃ e, free_cash_flow (cash_flow fd) = Raise e)
    ∨ years = O
    ∨ (∃ e, cash_and_debt (balance_sheet fd) = Raise e).
Proof.
  intros Hne Hdr Hs. split.
  - intros HN.
    destruct (free_cash_flow (cash_flow fd)) as [f|e] eqn:Hf; [|eauto].
    destruct years as [|n]; [auto|].
    destruct (cash_and_debt (balance_sheet fd)) as [[c d]|e] eqn:Hcd; [|eauto].
    destruct (dcf_valuation_resolved fd (S n) f c d Hf Hcd) as (r & Hr & _);
      [lia | done | done | done | congruence].
  - unfold dcf_valuation, dcf_body. intros [[e He] | [-> | [e He]]].
    + by rewrite He.
    + destruct (free_cash_flow (cash_flow fd)); reflexivity.
    + destruct (free_cash_flow (cash_flow fd)) as [f|]; [|reflexivity].
      cbn [bind]. destruct (list_last _); [|reflexivity]. cbn [bind].
      rewrite div_Fin by (intros H; apply Hne; lra). cbn [bind].
      rewrite (sequence_imap_Ok _
                 (λ (i : nat) (cf : Q),
                    Fin (cf / (1 + dr) ^ Z.of_nat (i + 1))))
        by (intros i x; apply div_Fin; by apply Qpower_not_0).
      cbn [bind]. rewrite div_Fin by by apply Qpower_not_0. cbn [bind].
      by rewrite He.
Qed.

(** Inversion: without a zero divisor, a result of [dcf_valuation] is the
    reference computation on resolved inputs. *)
Lemma dcf_valuation_inv (fd : financial_data) (years : nat) (r : dcf_result) :
  ¬ dr == tg → ¬ 1 + dr == 0 → ¬ shares_outstanding fd == 0 →
  dcf_valuation zero_division fd g dr tg years = Some r →
  ∃ f cash debt,
    free_cash_flow (cash_flow fd) = Ok f
    ∧ cash_and_debt (balance_sheet fd) = Ok (cash, debt)
    ∧ (1 ≤ years)%nat
    ∧ dcf_enterprise_value r
      = Fin (Reference.enterprise_value f g dr tg years)
    ∧ dcf_equity_value r
      = Fin (Reference.equity_value f g dr tg years cash debt)
    ∧ dcf_value_per_share r
      = Fin (Reference.per_share f g dr tg years cash debt
               (shares_outstanding fd)).
Proof.
  intros Hne Hdr Hs Hr.
  assert (HN : dcf_valuation zero_division fd g dr tg years ≠ None)
    by congruence.
  rewrite dcf_valuation_None_iff in HN by done.
  destruct (free_cash_flow (cash_flow fd)) as [f|e] eqn:Hf;
    [|exfalso; apply HN; eauto].
  destruct (cash_and_debt (balance_sheet fd)) as [[c d]|e] eqn:Hcd;
    [|exfalso; apply HN; eauto].
  assert (Hy : (1 ≤ years)%nat).
  { destruct years; [exfalso; apply HN; auto | lia]. }
  destruct (dcf_valuation_resolved fd years f c d Hf Hcd Hy Hne Hdr Hs)
    as (r' & Hr' & _ & _ & Hev & Heq & Hps).
  exists f, c, d. replace r with r' by congruence. done.
Qed.

(** *** Signs in the reference computation *)





End DCF.

(** ** C4: the DCF method computes the reference value *)

(** Claim C4.  Whenever free cash flow [f], cash and debt resolve, there is
    at least one projection year, discountRate > terminalGrowthRate, and the
    reference computation is defined (discountRate is not -1 and the share
    count in use is not zero), [dcf_valuation] returns a result whose
    projected flows are [f·(1+growthRate)^i] for [i = 1..years] and whose
    terminal value, enterprise value, equity value and per-share value are
    those of the reference computation.  On the specification's end-to-end
    example (Operating Cash Flow 1000, Capital Expenditure -200, default
    rates, 5 years, cash 500, debt 300, 100 shares) free cash flow is 800,
    the projected flows are 840, 882, 926.1, 972.405 and 1021.02525, the
    terminal value is 13018.0719375, the enterprise value 677567625/58564,
    the equity value 689280425/58564 and the per-share value
    27571217/234256 (about 117.70). *)
Theorem dcf_matches_reference :
  (∀ (zero_division : num → res num) (fd : financial_data) (g dr tg : Q)
     (years : nat) (f cash debt : Q),
     free_cash_flow (cash_flow fd) = Ok f →
     cash_and_debt (balance_sheet fd) = Ok (cash, debt) →
     (1 ≤ years)%nat →
     (tg < dr)%Q →
     ¬ (1 + dr == 0)%Q →
     ¬ (shares_outstanding fd == 0)%Q →
     ∃ r, dcf_valuation zero_division fd g dr tg years = Some r
          ∧ projected_cash_flows r
            = map (Reference.projected_flow f g) (seq 1 years)
          ∧ terminal_value r = Fin (Reference.terminal f g dr tg years)
          ∧ dcf_enterprise_value r
            = Fin (Reference.enterprise_value f g dr tg years)
          ∧ dcf_equity_value r
            = Fin (Reference.equity_value f g dr tg years cash debt)
          ∧ dcf_value_per_share r
            = Fin (Reference.per_share f g dr tg years cash debt
                     (shares_outstanding fd)))
  ∧ free_cash_flow (cash_flow Examples.spec_example) = Ok 800%Q
  ∧ ∀ zero_division : num → res num,
      ∃ r, dcf_valuation zero_division Examples.spec_example 0.05 0.1 0.02 5
           = Some r
           ∧ Forall2 Qeq (projected_cash_flows r)
               [840; 882; 926.1; 972.405; 1021.02525]%Q
           ∧ num_eq (terminal_value r) (Fin 13018.0719375)
           ∧ num_eq (dcf_enterprise_value r) (Fin (677567625 # 58564))
           ∧ num_eq (dcf_equity_value r) (Fin (689280425 # 58564))
           ∧ num_eq (dcf_value_per_share r) (Fin (27571217 # 234256)).
Proof.
  split; [|split].
  - intros zd fd g dr tg years f cash debt Hf Hcd Hy Hlt Hdr Hs.
    apply dcf_valuation_resolved; try done. lra.
  - reflexivity.
  - intros zd. eexists. split; [vm_compute; reflexivity|].
    split; [|vm_compute; done].
    repeat constructor; vm_compute; reflexivity.
Qed.

Lemma dcf_matches_reference_witness :
  ∃ r, dcf_valuation python_division Examples.spec_example 0.05 0.1 0.02 5
       = Some r
       ∧ dcf_value_per_share r
         = Fin (Reference.per_share 800 0.05 0.1 0.02 5 500 300
                  (shares_outstanding Examples.spec_example)).
Proof.
  destruct (proj1 dcf_matches_reference python_division Examples.spec_example
              0.05%Q 0.1%Q 0.02%Q 5%nat 800%Q 500%Q 300%Q)
    as (r & Hr & _ & _ & _ & _ & Hps).
  - reflexivity.
  - reflexivity.
  - lia.
  - reflexivity.
  - vm_compute; lia.
  - vm_compute; lia.
  - exists r. split; [exact Hr | exact Hps].
Defined.

(** ** C7: sign of the DCF per-share value *)




(** ** C3: discountRate ≤ terminalGrowthRate *)

(** Counterexample to C3 as stated.  The specification's example company
    valued with discountRate 0.02 and terminalGrowthRate 0.05: the method
    returns an estimate, -278 a share, whatever a division by zero does. *)
Lemma dcf_low_discount_rate_counterexample :
  (0.02 <= 0.05)%Q
  ∧ (∃ r, dcf_valuation python_division Examples.spec_example
            0.05 0.02 0.05 5 = Some r
          ∧ num_eq (dcf_value_per_share r) (Fin (-278)))
  ∧ (∃ r, dcf_valuation numpy_division Examples.spec_example
            0.05 0.02 0.05 5 = Some r
          ∧ num_eq (dcf_value_per_share r) (Fin (-278))).
Proof.
  split; [unfold Qle; simpl; lia|].
  split; eexists; (split; [vm_compute; reflexivity|]); vm_compute; reflexivity.
Qed.

(** Equal rates are where the two behaviours of a division by zero part:
    with Python floats the method is unavailable, with numpy scalars it
    emits an infinite value. *)
Example equal_rates_python :
  dcf_valuation python_division Examples.spec_example 0.05 0.1 0.1 5 = None.
Proof. reflexivity. Qed.

Example equal_rates_numpy :
  dcf_value_per_share
  <$> dcf_valuation numpy_division Examples.spec_example 0.05 0.1 0.1 5
  = Some PInf.
Proof. reflexivity. Qed.

(** Claim C3, amended.  A discountRate below terminalGrowthRate does not
    make the DCF method unavailable.  For discountRate < terminalGrowthRate
    (discountRate not -1, share count in use not zero) it reports
    "unavailable" exactly when the free-cash-flow lookup raises, there is no
    projection year, or the cash/debt lookup raises; with resolved inputs it
    returns the estimate of the reference computation, whose terminal value
    is the quotient by the negative denominator. *)
Theorem dcf_available_below_terminal_growth :
  (∀ (zero_division : num → res num) (fd : financial_data) (g dr tg : Q)
     (years : nat),
     (dr < tg)%Q → ¬ (1 + dr == 0)%Q → ¬ (shares_outstanding fd == 0)%Q →
     (dcf_valuation zero_division fd g dr tg years = None
      ↔ (∃ e, free_cash_flow (cash_flow fd) = Raise e)
        ∨ years = O
        ∨ (∃ e, cash_and_debt (balance_sheet fd) = Raise e)))
  ∧ (∀ (zero_division : num → res num) (fd : financial_data) (g dr tg : Q)
       (years : nat) (f cash debt : Q),
       free_cash_flow (cash_flow fd) = Ok f →
       cash_and_debt (balance_sheet fd) = Ok (cash, debt) →
       (1 ≤ years)%nat →
       (dr < tg)%Q → ¬ (1 + dr == 0)%Q → ¬ (shares_outstanding fd == 0)%Q →
       ∃ r, dcf_valuation zero_division fd g dr tg years = Some r
            ∧ terminal_value r
              = Fin (Reference.projected_flow f g years * (1 + tg)
                     / (dr - tg))%Q
            ∧ dcf_value_per_share r
              = Fin (Reference.per_share f g dr tg years cash debt
                       (shares_outstanding fd))).
Proof.
  split.
  - intros zd fd g dr tg years Hlt Hdr Hs.
    apply dcf_valuation_None_iff; try done. lra.
  - intros zd fd g dr tg years f cash debt Hf Hcd Hy Hlt Hdr Hs.
    destruct (dcf_valuation_resolved zd g dr tg fd years f cash debt)
      as (r & Hr & _ & Ht & _ & _ & Hps); try done; try lra.
    by exists r.
Qed.

Lemma dcf_available_below_terminal_growth_witness :
  ∃ r, dcf_valuation python_division Examples.spec_example 0.05 0.02 0.05 5
       = Some r
       ∧ dcf_value_per_share r
         = Fin (Reference.per_share 800 0.05 0.02 0.05 5 500 300
                  (shares_outstanding Examples.spec_example)).
Proof.
  destruct (proj2 dcf_available_below_terminal_growth python_division
              Examples.spec_example
              0.05%Q 0.02%Q 0.05%Q 5%nat 800%Q 500%Q 300%Q)
    as (r & Hr & _ & Hps).
  - reflexivity.
  - reflexivity.
  - lia.
  - reflexivity.
  - vm_compute; lia.
  - vm_compute; lia.
  - exists r. split; [exact Hr | exact Hps].
Defined.

(** ** Share count *)

Section MethodFacts.

Local Open Scope Q_scope.

Variable zero_division : num → res num.
Variable get_financial_data : string → option financial_data.
Variable ticker_info : string → res (gmap string Q).

Lemma Ok_inj {A : Type} (a b : A) : Ok a = Ok b → a = b.
Proof. by intros [= ->]. Qed.

Lemma shares_outstanding_absent (fd : financial_data) :
  info fd !! "sharesOutstanding" = None → shares_outstanding fd = 1.
Proof. unfold shares_outstanding. by intros ->. Qed.

End MethodFacts.


(** ** C1: the share count *)

(** Counterexample to C1 as stated.  The specification's example company
    with no share count in its profile: the DCF method is not "unavailable";
    it divides by the default share count 1 and reports the whole equity
    value, 689280425/58564, as the value of one share, whatever a division by
    zero does. *)
Lemma share_count_absent_counterexample :
  info Examples.no_share_count !! "sharesOutstanding" = None
  ∧ (∃ r, dcf_valuation python_division Examples.no_share_count
            0.05 0.1 0.02 5 = Some r
          ∧ num_eq (dcf_value_per_share r) (dcf_equity_value r)
          ∧ num_eq (dcf_value_per_share r) (Fin (689280425 # 58564)))
  ∧ (∃ r, dcf_valuation numpy_division Examples.no_share_count
            0.05 0.1 0.02 5 = Some r
          ∧ num_eq (dcf_value_per_share r) (dcf_equity_value r)
          ∧ num_eq (dcf_value_per_share r) (Fin (689280425 # 58564))).
Proof.
  split; [reflexivity|].
  split; eexists; (split; [vm_compute; reflexivity|]);
    split; vm_compute; reflexivity.
Qed.

(** A share count of exactly zero is where the two behaviours of a division
    by zero part: with Python floats the method is unavailable, with numpy
    scalars it emits an infinite value. *)
Example zero_share_count_python :
  dcf_valuation python_division Examples.zero_share_count 0.05 0.1 0.02 5
  = None.
Proof. reflexivity. Qed.

Example zero_share_count_numpy :
  dcf_value_per_share
    <$> dcf_valuation numpy_division Examples.zero_share_count 0.05 0.1 0.02 5
  = Some PInf.
Proof. reflexivity. Qed.

(** Claim C1, amended.  A share count that is absent from the profile is
    replaced by the default 1, and the methods stay available: with resolved
    inputs (and, for DCF, discountRate different from terminalGrowthRate and
    from -1) the DCF method, the P/E method on its net-income fallback
    (trailingEPS absent or zero) and the EV/EBITDA method return the equity
    value (resp. net income) divided by 1.  Whenever the share count in use
    (the profile's, or the default) is not zero, a per-share value that is
    emitted is the quotient by that share count: of the equity value for the
    DCF method, the EV/EBITDA method and the two EV-based comparable
    multiples, of Net Income for the fallback EPS of the P/E method.
    Whether an emitted value is finite is not stated: the program never
    tests it. *)
Theorem share_count_default_and_quotient
    (zero_division : num → res num)
    (ticker_info : string → res (gmap string Q))
    (fd : financial_data) :
  (info fd !! "sharesOutstanding" = None →
     shares_outstanding fd = 1%Q
     ∧ (∀ (g dr tg : Q) (years : nat) (f cash debt : Q),
          free_cash_flow (cash_flow fd) = Ok f →
          cash_and_debt (balance_sheet fd) = Ok (cash, debt) →
          (1 ≤ years)%nat →
          ¬ (dr == tg)%Q → ¬ (1 + dr == 0)%Q →
          ∃ r,
            dcf_valuation zero_division fd g dr tg years = Some r
            ∧ dcf_value_per_share r = ndiv_by (dcf_equity_value r) 1)
     ∧ (∀ (peers : option (list string)) (net_income : Q),
          falsy (info fd !! "trailingEPS") →
          loc_last (income_stmt fd) "Net Income" = Ok net_income →
          ∃ r, pe_valuation zero_division ticker_info fd peers = Some r
               ∧ pe_eps r = ndiv_by (Fin net_income) 1)
     ∧ (∀ (peers : option (list string)) (ebitda cash debt : Q),
          resolve_ebitda fd = Ok ebitda →
          cash_and_debt (balance_sheet fd) = Ok (cash, debt) →
          ∃ r,
            ev_ebitda_valuation zero_division ticker_info fd peers = Some r
            ∧ ev_ebitda_value_per_share r = ndiv_by (ev_equity_value r) 1))
  ∧ (¬ (shares_outstanding fd == 0)%Q →
     (∀ (g dr tg : Q) (years : nat) (r : dcf_result),
        dcf_valuation zero_division fd g dr tg years = Some r →
        dcf_value_per_share r
        = ndiv_by (dcf_equity_value r) (shares_outstanding fd))
     ∧ (∀ (peers : option (list string)) (r : pe_result),
          falsy (info fd !! "trailingEPS") →
          pe_valuation zero_division ticker_info fd peers = Some r →
          ∃ net_income,
            loc_last (income_stmt fd) "Net Income" = Ok net_income
            ∧ pe_eps r = ndiv_by (Fin net_income) (shares_outstanding fd))
     ∧ (∀ (peers : option (list string)) (r : ev_ebitda_result),
          ev_ebitda_valuation zero_division ticker_info fd peers = Some r →
          ev_ebitda_value_per_share r
          = ndiv_by (ev_equity_value r) (shares_outstanding fd))
     ∧ (∀ (multiple : Q) (v : num),
          implied_ev_ebitda zero_division (Some fd) multiple = Ok v →
          ∃ ebitda cash debt,
            resolve_ebitda fd = Ok ebitda
            ∧ cash_and_debt (balance_sheet fd) = Ok (cash, debt)
            ∧ v = ndiv_by (Fin (ebitda * multiple + cash - debt))
                    (shares_outstanding fd))
     ∧ (∀ (multiple : Q) (v : num),
          implied_ev_sales zero_division (Some fd) multiple = Ok v →
          ∃ revenue cash debt,
            loc_last (income_stmt fd) "Total Revenue" = Ok revenue
            ∧ cash_and_debt (balance_sheet fd) = Ok (cash, debt)
            ∧ v = ndiv_by (Fin (revenue * multiple + cash - debt))
                    (shares_outstanding fd))).
Proof.
  assert (Hfalsy : falsy (info fd !! "trailingEPS") →
                   resolve_eps zero_division fd
                   = eps_from_net_income zero_division fd).
  { unfold resolve_eps. intros [->|(q & -> & Hq)]; [done|].
    assert (Qtruthy q = false) as ->; [|done].
    unfold Qtruthy. by apply negb_false_iff, Qeq_bool_iff. }
  split.
  - intros Habs. pose proof (shares_outstanding_absent fd Habs) as Hone.
    assert (Hnz : ¬ (shares_outstanding fd == 0)%Q)
      by (rewrite Hone; intros H; vm_compute in H; lia).
    split; [done|]. split; [|split].
    + intros g dr tg years f cash debt Hf Hcd Hy Hne Hdr.
      destruct (dcf_valuation_resolved zero_division g dr tg fd years
                  f cash debt Hf Hcd Hy Hne Hdr Hnz)
        as (r & Hr & _ & _ & _ & Heq & Hps).
      exists r. split; [done|].
      by rewrite Hps, Heq, <- Hone.
    + intros peers ni Heps Hni. unfold pe_valuation.
      rewrite (Hfalsy Heps). unfold eps_from_net_income.
      rewrite Hni. cbn [bind].
      rewrite div_Fin by done. rewrite Hone. cbn [bind catch_all].
      eexists. split; reflexivity.
    + intros peers ebitda cash debt He Hcd.
      unfold ev_ebitda_valuation, per_share_of_ev.
      rewrite He. cbn [bind]. rewrite Hcd. cbn [bind nadd nsub].
      rewrite div_Fin by done. rewrite Hone. cbn [bind catch_all].
      eexists. split; reflexivity.
  - intros Hs. split; [|split; [|split; [|split]]].
    + intros g dr tg years r. unfold dcf_valuation, dcf_body, catch_all.
      destruct (free_cash_flow (cash_flow fd)) as [f|]; cbn [bind]; [|done].
      destruct (list_last _) as [lf|]; cbn [bind]; [|done].
      destruct (div zero_division (Fin _) _) as [t|]; cbn [bind]; [|done].
      destruct (sequence _) as [pvs|]; cbn [bind]; [|done].
      destruct (div zero_division _ _) as [pvt|]; cbn [bind]; [|done].
      destruct (cash_and_debt _) as [[c d]|]; cbn [bind]; [|done].
      rewrite div_nonzero by done. cbn [bind].
      intros Hr. apply (inj Some) in Hr. by subst r.
    + intros peers r Heps. unfold pe_valuation.
      rewrite (Hfalsy Heps). unfold eps_from_net_income.
      destruct (loc_last (income_stmt fd) "Net Income") as [ni|];
        cbn [bind catch_all]; [|done].
      rewrite div_nonzero by done. cbn [bind].
      intros Hr. apply (inj Some) in Hr. subst r. by exists ni.
    + intros peers r. unfold ev_ebitda_valuation, per_share_of_ev, catch_all.
      destruct (resolve_ebitda fd) as [ebitda|]; cbn [bind]; [|done].
      destruct (cash_and_debt _) as [[c d]|]; cbn [bind]; [|done].
      rewrite div_nonzero by done. cbn [bind].
      intros Hr. apply (inj Some) in Hr. by subst r.
    + intros m v. unfold implied_ev_ebitda, per_share_of_ev.
      cbn [subscript bind].
      destruct (resolve_ebitda fd) as [ebitda|]; cbn [bind]; [|done].
      destruct (cash_and_debt _) as [[c d]|]; cbn [bind]; [|done].
      rewrite div_nonzero by done. cbn [bind].
      intros Hv. apply Ok_inj in Hv. subst v. by exists ebitda, c, d.
    + intros m v. unfold implied_ev_sales, per_share_of_ev.
      cbn [subscript bind].
      destruct (loc_last (income_stmt fd) "Total Revenue") as [revenue|];
        cbn [bind]; [|done].
      destruct (cash_and_debt _) as [[c d]|]; cbn [bind]; [|done].
      rewrite div_nonzero by done. cbn [bind].
      intros Hv. apply Ok_inj in Hv. subst v. by exists revenue, c, d.
Qed.

Lemma share_count_default_and_quotient_witness :
  shares_outstanding Examples.no_share_count = 1%Q
  ∧ ∃ r,
      dcf_valuation python_division Examples.no_share_count 0.05 0.1 0.02 5
      = Some r
      ∧ dcf_value_per_share r = ndiv_by (dcf_equity_value r) 1
      ∧ dcf_value_per_share r
        = ndiv_by (dcf_equity_value r)
            (shares_outstanding Examples.no_share_count).
Proof.
  pose proof (share_count_default_and_quotient python_division
                Examples.no_info Examples.no_share_count)
    as [Habsent Hquotient].
  destruct Habsent as (Hone & Hdcf & _); [reflexivity|].
  destruct (Hdcf 0.05%Q 0.1%Q 0.02%Q 5%nat 800%Q 500%Q 300%Q)
    as (r & Hr & Hps);
    [reflexivity | reflexivity | lia | vm_compute; lia | vm_compute; lia |].
  split; [exact Hone|]. exists r. split; [exact Hr|]. split; [exact Hps|].
  destruct Hquotient as (Hq & _); [vm_compute; lia|].
  exact (Hq 0.05%Q 0.1%Q 0.02%Q 5%nat r Hr).
Defined.

(** ** The aggregator *)

Section Aggregator.

Variable zero_division : num → res num.
Variable get_financial_data : string → option financial_data.
Variable ticker_info : string → res (gmap string Q).

(** The report lists, in program order, exactly the methods that passed the
    aggregator's tests. *)
Lemma method_valuations_entries (fd : financial_data) (ticker_symbol : string)
    (target_companies : option (list string)) :
  method_valuations zero_division get_financial_data ticker_info fd
    ticker_symbol target_companies
  = (entry "DCF"
       (dcf_value_per_share <$> dcf_valuation_default zero_division fd)
     ++ entry "P/E"
          (pe_value_per_share
             <$> pe_valuation zero_division ticker_info fd target_companies)
     ++ entry "P/BV"
          (pbv_value_per_share
             <$> pbv_valuation zero_division ticker_info fd target_companies)
     ++ entry "EV/EBITDA"
          (ev_ebitda_value_per_share
             <$> ev_ebitda_valuation zero_division ticker_info fd
                   target_companies)
     ++ entry "Market Multiples"
          (accepted_market_multiples zero_division get_financial_data
             ticker_symbol target_companies))%list.
Proof.
  unfold method_valuations, record_market_multiples, accepted_market_multiples.
  destruct (dcf_valuation_default zero_division fd) as [r1|];
    destruct (pe_valuation _ _ _ _) as [r2|];
    destruct (pbv_valuation _ _ _ _) as [r3|];
    destruct (ev_ebitda_valuation _ _ _ _) as [r4|];
    destruct target_companies as [[|p peers]|]; try reflexivity;
    (destruct (market_multiples_valuation _ _ _ _) as [mm|]; [|reflexivity]);
    (destruct (average_valuation mm) as [a|]; [|reflexivity]);
    destruct (truthy a); reflexivity.
Qed.

(** The Average entry is the mean of the listed values, and is missing
    exactly when no method is listed. *)
Lemma perform_valuation_average (ticker_symbol : string)
    (target_companies : option (list string)) (rep : report) :
  perform_valuation zero_division get_financial_data ticker_info
    ticker_symbol target_companies = Ok (Some rep) →
  ∃ fd, get_financial_data ticker_symbol = Some fd
        ∧ methods rep
          = method_valuations zero_division get_financial_data ticker_info
              fd ticker_symbol target_companies
        ∧ Average rep
          = match methods rep with
            | [] => None
            | _ => Some (nmean (map snd (methods rep)))
            end.
Proof.
  unfold perform_valuation.
  destruct (get_financial_data ticker_symbol) as [fd|]; [|done].
  destruct (determine_current_price fd) as [price|]; [|done].
  cbn [bind]. intros [= <-]. exists fd. cbn [methods Average].
  split; [done|]. split; [done|].
  by destruct (method_valuations _ _ _ _ _ _).
Qed.

(** An exception leaves [perform_valuation] exactly when the subject's data
    was fetched and its current price cannot be determined. *)
Lemma perform_valuation_raises_iff (ticker_symbol : string)
    (target_companies : option (list string)) (e : exn) :
  perform_valuation zero_division get_financial_data ticker_info
    ticker_symbol target_companies = Raise e
  ↔ ∃ fd, get_financial_data ticker_symbol = Some fd
          ∧ determine_current_price fd = Raise e.
Proof.
  unfold perform_valuation. split.
  - destruct (get_financial_data ticker_symbol) as [fd|]; [|done].
    destruct (determine_current_price fd) as [price|e'] eqn:Hp; [done|].
    cbn [bind]. intros [= ->]. eauto.
  - intros (fd & -> & ->). reflexivity.
Qed.

End Aggregator.

(** ** C2: exceptions leaving [perform_valuation] *)

(** Claim C2 fails on the code.  For a ticker whose fetch succeeds with an
    empty price history and no current price in the profile, the lookup of
    the last close raises [IndexError]; it is outside every [try], so the
    exception leaves [perform_valuation] instead of a report or [None]. *)
Theorem perform_valuation_raises_on_empty_history :
  Examples.only_unknown "XXXX" = Some Examples.unknown_ticker
  ∧ info Examples.unknown_ticker !! "currentPrice" = None
  ∧ hist Examples.unknown_ticker = []
  ∧ ∀ (zero_division : num → res num)
      (target_companies : option (list string)),
      perform_valuation zero_division Examples.only_unknown Examples.no_info
        "XXXX" target_companies
      = Raise IndexError.
Proof. repeat split; reflexivity. Qed.

(** ** C6: cash and debt fallbacks *)

(** Both primary rows present: they are the resolved values. *)
Lemma cash_and_debt_primary (bs : gmap string (list Q)) (cash debt : Q) :
  loc_last bs "Cash And Cash Equivalents" = Ok cash →
  loc_last bs "Total Debt" = Ok debt →
  cash_and_debt bs = Ok (cash, debt).
Proof. intros Hc Hd. unfold cash_and_debt. by rewrite Hc, Hd. Qed.

(** A missing 'Total Debt' row sends cash to the handler as well, whatever
    'Cash And Cash Equivalents' holds. *)
Lemma cash_and_debt_without_total_debt (bs : gmap string (list Q)) (e : exn) :
  loc_last bs "Total Debt" = Raise e →
  cash_and_debt bs
  = (let* cash := loc_last_or_zero bs "Cash And Short Term Investments" in
     let* debt := loc_last_or_zero bs "Long Term Debt" in
     Ok (cash, debt)).
Proof.
  intros Hd. unfold cash_and_debt.
  destruct (loc_last bs "Cash And Cash Equivalents"); [|reflexivity].
  cbn [bind]. by rewrite Hd.
Qed.

(** Claim C6 fails on the code.  On a balance sheet that has
    'Cash And Cash Equivalents' (500) and 'Long Term Debt' (300) but no
    'Total Debt', the missing debt row makes the one [try] fail, and cash is
    taken from the handler: 0 instead of 500. *)
Theorem cash_dropped_when_total_debt_missing :
  loc_last Examples.cash_without_total_debt "Cash And Cash Equivalents"
  = Ok 500%Q
  ∧ loc_last Examples.cash_without_total_debt "Total Debt" = Raise KeyError
  ∧ cash_and_debt Examples.cash_without_total_debt = Ok (0%Q, 300%Q).
Proof. repeat split; reflexivity. Qed.

(** ** C5: the average *)

(** Claim C5 fails on the code.  A subject with Net Income 0, book value 10
    and no multiples of its own, and one peer at 20 times earnings: the
    comparable-multiples method succeeds with a mean of 0 (one implied value,
    0·20), but the aggregator's truthiness test drops it.  The report lists
    P/E (0) and P/BV (20), and its Average is 10, the mean of two values,
    while three methods produced a value (their mean is 20/3). *)
Theorem average_skips_zero_market_multiples
    (zero_division : num → res num) :
  (∃ mm z, market_multiples_valuation zero_division Examples.break_even_data
             "SUBJ" ["PEER"] = Some mm
           ∧ map fst (mm_valuations mm) = ["P/E"]
           ∧ average_valuation mm = Some (Fin z)
           ∧ (z == 0)%Q)
  ∧ ∃ rep pe pbv avg,
      perform_valuation zero_division Examples.break_even_data
        Examples.break_even_info "SUBJ" (Some ["PEER"]) = Ok (Some rep)
      ∧ methods rep = [("P/E", Fin pe); ("P/BV", Fin pbv)]
      ∧ (pe == 0)%Q ∧ (pbv == 20)%Q
      ∧ Average rep = Some (Fin avg)
      ∧ (avg == 10)%Q
      ∧ ¬ (avg == (0 + 20 + 0) / 3)%Q.
Proof.
  split.
  - eexists. eexists. split; [vm_compute; reflexivity|].
    repeat split; vm_compute; reflexivity.
  - do 4 eexists. split; [vm_compute; reflexivity|].
    split; [reflexivity|].
    repeat split; try (vm_compute; reflexivity).
    vm_compute. lia.
Qed.

(** ** The multiples *)

Section Multiples.

Local Open Scope Q_scope.

Variable zero_division : num → res num.
Variable get_financial_data : string → option financial_data.
Variable ticker_info : string → res (gmap string Q).

Lemma Qtruthy_positive (q : Q) :
  Qtruthy q && Qpositive q = true ↔ 0 < q.
Proof.
  unfold Qtruthy, Qpositive. rewrite andb_true_iff, !negb_true_iff. split.
  - intros [_ Hle]. apply Qnot_le_lt. intros H.
    apply Qle_bool_iff in H. congruence.
  - intros Hpos. split.
    + destruct (Qeq_bool q 0) eqn:E; [|done].
      apply Qeq_bool_eq in E. lra.
    + destruct (Qle_bool q 0) eqn:E; [|done].
      apply Qle_bool_iff in E. lra.
Qed.

Lemma Qtruthy_false (q : Q) : Qtruthy q = false ↔ q == 0.
Proof.
  unfold Qtruthy. rewrite negb_false_iff. apply Qeq_bool_iff.
Qed.

(** [sum(xs) / len(xs)], written with the sum and the length of the list. *)
Lemma fold_left_Qplus (xs : list Q) (acc : Q) :
  fold_left Qplus xs acc == acc + foldr Qplus 0 xs.
Proof.
  revert acc. induction xs as [|x xs IH]; intros acc; cbn [fold_left foldr].
  - lra.
  - rewrite IH. lra.
Qed.

Lemma Qmean_sum_over_length (xs : list Q) :
  Qmean xs == foldr Qplus 0 xs / inject_Z (Z.of_nat (length xs)).
Proof.
  unfold Qmean, Qsum. rewrite fold_left_Qplus.
  apply Qdiv_comp; [lra | reflexivity].
Qed.

(** The loop over the peers collects exactly their strictly positive
    multiples, in the order of the peers. *)
Lemma peer_ratios_positive (key : string) (peers : list string) :
  peer_ratios ticker_info key peers
  = positive_peer_multiples ticker_info key peers.
Proof.
  unfold peer_ratios, positive_peer_multiples.
  induction peers as [|p peers IH]; [reflexivity|].
  cbn [omap list_omap]. unfold peer_ratio at 1, peer_field at 1.
  destruct (ticker_info p) as [peer_info|]; [|exact IH].
  destruct (peer_info !! key) as [q|]; [|exact IH].
  rewrite filter_cons.
  destruct (Qtruthy q && Qpositive q) eqn:E.
  - apply Qtruthy_positive in E. rewrite decide_True by done. by rewrite IH.
  - rewrite decide_False; [exact IH|].
    intros H. apply Qtruthy_positive in H. congruence.
Qed.

Lemma average_multiple_stages (key : string) (dflt : Q) (fd : financial_data)
    (target_companies : option (list string)) :
  average_multiple ticker_info key dflt fd target_companies
  = match positive_peer_multiples ticker_info key
            (default [] target_companies) with
    | [] => default dflt (info fd !! key)
    | ratios => Qmean ratios
    end.
Proof.
  unfold average_multiple.
  destruct target_companies as [[|p peers]|]; try reflexivity.
  by rewrite peer_ratios_positive.
Qed.

(** When every peer fetch fails there is nothing to compare with. *)
Lemma comparable_data_all_fail (peers : list string) :
  (∀ p, p ∈ peers → get_financial_data p = None) →
  comparable_data get_financial_data peers = [].
Proof.
  unfold comparable_data. generalize (@nil (string * financial_data)).
  induction peers as [|p peers IH]; intros acc Hfail; [reflexivity|].
  cbn [fold_left]. rewrite (Hfail p) by by left.
  apply IH. intros q Hq. apply Hfail. by right.
Qed.

End Multiples.

(** ** C8: the P/E multiple *)

(** Claim C8.  Once EPS resolves, the P/E method returns EPS times its
    multiple, and the multiple follows three stages: the average (sum divided
    by count) of the peers' strictly positive trailing P/E values when there
    is at least one; else (no peers, or no usable peer value) the subject's
    own profile trailing P/E; else the constant 15.  With no peers, trailing
    EPS 5 and no trailing P/E the result is 75; with trailing EPS 5 and peers
    at 10, -4, unfetchable, 30 and without the field, the multiple is 20 and
    the result 100. *)
Theorem pe_three_stage_fallback :
  (∀ (zero_division : num → res num)
     (ticker_info : string → res (gmap string Q)) (fd : financial_data)
     (target_companies : option (list string)) (eps : num),
     resolve_eps zero_division fd = Ok eps →
     ∃ r, pe_valuation zero_division ticker_info fd target_companies = Some r
          ∧ pe_eps r = eps
          ∧ pe_value_per_share r = nmul eps (Fin (average_pe r))
          ∧ let ratios :=
              positive_peer_multiples ticker_info "trailingPE"
                (default [] target_companies) in
            (ratios ≠ [] →
             (average_pe r
              == foldr Qplus 0 ratios / inject_Z (Z.of_nat (length ratios)))%Q)
            ∧ (ratios = [] →
               ∀ own, info fd !! "trailingPE" = Some own → average_pe r = own)
            ∧ (ratios = [] →
               info fd !! "trailingPE" = None → average_pe r = 15%Q))
  ∧ (info Examples.eps5 !! "trailingEPS" = Some 5%Q
     ∧ info Examples.eps5 !! "trailingPE" = None
     ∧ ∀ (zero_division : num → res num)
         (ticker_info : string → res (gmap string Q)),
         pe_valuation zero_division ticker_info Examples.eps5 None
         = Some {| pe_eps := Fin 5;
                   average_pe := 15;
                   pe_value_per_share := Fin 75 |})
  ∧ (positive_peer_multiples MoreExamples.peers_info "trailingPE"
       MoreExamples.five_peers = [10%Q; 30%Q]
     ∧ ∀ (zero_division : num → res num),
         ∃ r, pe_valuation zero_division MoreExamples.peers_info
                Examples.eps5 (Some MoreExamples.five_peers) = Some r
              ∧ (average_pe r == 20)%Q
              ∧ num_eq (pe_value_per_share r) (Fin 100)).
Proof.
  split; [|split; [repeat split; reflexivity|]].
  - intros zd ticker_info fd peers eps Heps. unfold pe_valuation.
    rewrite Heps. cbn [bind catch_all]. eexists. split; [reflexivity|].
    cbn [pe_eps pe_value_per_share average_pe].
    split; [done|]. split; [done|].
    rewrite average_multiple_stages.
    destruct (positive_peer_multiples _ _ _) as [|q l]; cbn zeta.
    + split; [done|]. split.
      * by intros _ own ->.
      * by intros _ ->.
    + split; [intros _; apply Qmean_sum_over_length|]. split; by intros [=].
  - split; [vm_compute; reflexivity|]. intros zd.
    eexists. split; [vm_compute; reflexivity|].
    split; vm_compute; reflexivity.
Qed.

Lemma pe_three_stage_fallback_witness :
  ∃ r, pe_valuation python_division MoreExamples.peers_info Examples.eps5
         (Some MoreExamples.five_peers) = Some r
       ∧ (average_pe r == (10 + 30) / 2)%Q
       ∧ pe_value_per_share r = nmul (Fin 5) (Fin (average_pe r)).
Proof.
  destruct (proj1 pe_three_stage_fallback python_division
              MoreExamples.peers_info Examples.eps5
              (Some MoreExamples.five_peers) (Fin 5))
    as (r & Hr & _ & Hv & Hmean & _ & _).
  - reflexivity.
  - exists r. split; [exact Hr|]. split; [|exact Hv].
    cbn zeta in Hmean. cbn [default] in Hmean. unfold id in Hmean.
    rewrite (proj1 (proj2 (proj2 pe_three_stage_fallback))) in Hmean.
    rewrite Hmean by discriminate. vm_compute. reflexivity.
Defined.

(** ** C9: comparable multiples without peers *)

(** Claim C9.  When the peer list is empty, or every peer fetch fails, the
    comparable-multiples method collects no multiple and computes no implied
    value: its mean is [None], no default constant enters, and the report of
    [perform_valuation] has no 'Market Multiples' entry. *)
Theorem market_multiples_unavailable_without_peers
    (zero_division : num → res num)
    (get_financial_data : string → option financial_data)
    (ticker_info : string → res (gmap string Q))
    (ticker_symbol : string) (target_companies : option (list string)) :
  (∀ p, p ∈ default [] target_companies → get_financial_data p = None) →
  market_multiples_valuation zero_division get_financial_data ticker_symbol
    (default [] target_companies)
  = Some {| average_metrics := [];
            mm_valuations := [];
            average_valuation := None |}
  ∧ (∀ fd,
       dict_get "Market Multiples"
         (method_valuations zero_division get_financial_data ticker_info fd
            ticker_symbol target_companies) = None)
  ∧ (∀ rep,
       perform_valuation zero_division get_financial_data ticker_info
         ticker_symbol target_companies = Ok (Some rep) →
       dict_get "Market Multiples" (methods rep) = None).
Proof.
  intros Hfail.
  assert (Hmm : market_multiples_valuation zero_division get_financial_data
                  ticker_symbol (default [] target_companies)
                = Some {| average_metrics := [];
                          mm_valuations := [];
                          average_valuation := None |}).
  { unfold market_multiples_valuation.
    by rewrite (comparable_data_all_fail _ _ Hfail). }
  assert (Hacc : accepted_market_multiples zero_division get_financial_data
                   ticker_symbol target_companies = None).
  { unfold accepted_market_multiples.
    destruct target_companies as [[|p peers]|]; try reflexivity.
    change (default [] (Some (p :: peers))) with (p :: peers) in Hmm.
    by rewrite Hmm. }
  assert (Hget : ∀ fd,
    dict_get "Market Multiples"
      (method_valuations zero_division get_financial_data ticker_info fd
         ticker_symbol target_companies) = None).
  { intros fd. rewrite method_valuations_entries, Hacc.
    destruct (dcf_valuation_default zero_division fd);
      destruct (pe_valuation _ _ _ _);
      destruct (pbv_valuation _ _ _ _);
      destruct (ev_ebitda_valuation _ _ _ _); reflexivity. }
  split; [done|]. split; [done|].
  intros rep Hrep.
  destruct (perform_valuation_average _ _ _ _ _ _ Hrep) as (fd & _ & -> & _).
  apply Hget.
Qed.

Lemma market_multiples_unavailable_without_peers_witness :
  market_multiples_valuation python_division Examples.no_data "SUBJ"
    ["AAA"; "BBB"]
  = Some {| average_metrics := [];
            mm_valuations := [];
            average_valuation := None |}.
Proof.
  destruct (market_multiples_unavailable_without_peers python_division
              Examples.no_data Examples.no_info "SUBJ" (Some ["AAA"; "BBB"]))
    as (Hmm & _).
  - intros p _. reflexivity.
  - exact Hmm.
Defined.

(** ** C10: falsy profile fields *)

(** Counterexample to C10 as stated.  At the fallback to the default P/E a
    trailing P/E of 0 is not treated as absent: with trailing EPS 5 and no
    peers, a profile with trailingPE = 0 is valued at 5·0 = 0, a profile
    without trailingPE at 5·15 = 75. *)
Lemma zero_multiple_is_not_absent_counterexample :
  info Examples.eps5_pe0 !! "trailingPE" = Some 0%Q
  ∧ info Examples.eps5 !! "trailingPE" = None
  ∧ info Examples.eps5_pe0 !! "trailingEPS" = info Examples.eps5 !! "trailingEPS"
  ∧ pe_valuation python_division Examples.no_info Examples.eps5_pe0 None
    = Some {| pe_eps := Fin 5; average_pe := 0; pe_value_per_share := Fin 0 |}
  ∧ pe_valuation python_division Examples.no_info Examples.eps5 None
    = Some {| pe_eps := Fin 5; average_pe := 15; pe_value_per_share := Fin 75 |}
  ∧ pe_valuation numpy_division Examples.no_info Examples.eps5_pe0 None
    = Some {| pe_eps := Fin 5; average_pe := 0; pe_value_per_share := Fin 0 |}
  ∧ pe_valuation numpy_division Examples.no_info Examples.eps5 None
    = Some {| pe_eps := Fin 5; average_pe := 15; pe_value_per_share := Fin 75 |}.
Proof. repeat split; reflexivity. Qed.

(** Claim C10, amended.  At the three fallback points guarded by a
    truthiness test a profile field equal to 0 is treated like an absent one:
    [perform_valuation] takes the most recent historical close when
    currentPrice is falsy, [pe_valuation] recomputes EPS as Net Income /
    shares when trailingEPS is falsy, and [pbv_valuation] recomputes book
    value per share as Total Stockholder Equity / shares when bookValue is
    falsy (the share count in use not being zero).  At the points that read
    the profile with [get(key, default)] (the subject's own multiple and the
    share count) a present field is used whatever its value, zero
    included. *)
Theorem falsy_profile_fields_fall_back
    (zero_division : num → res num)
    (get_financial_data : string → option financial_data)
    (ticker_info : string → res (gmap string Q))
    (fd : financial_data) :
  (falsy (info fd !! "currentPrice") →
     ∀ ticker_symbol target_companies close,
       get_financial_data ticker_symbol = Some fd →
       last (hist fd) = Some close →
       ∃ rep, perform_valuation zero_division get_financial_data ticker_info
                ticker_symbol target_companies = Ok (Some rep)
              ∧ current_price rep = close)
  ∧ (falsy (info fd !! "trailingEPS") →
       ∀ target_companies net_income,
         loc_last (income_stmt fd) "Net Income" = Ok net_income →
         ¬ (shares_outstanding fd == 0)%Q →
         ∃ r, pe_valuation zero_division ticker_info fd target_companies
              = Some r
              ∧ pe_eps r = Fin (net_income / shares_outstanding fd))
  ∧ (falsy (info fd !! "bookValue") →
       ∀ target_companies total_equity,
         loc_last (balance_sheet fd) "Total Stockholder Equity"
         = Ok total_equity →
         ¬ (shares_outstanding fd == 0)%Q →
         ∃ r, pbv_valuation zero_division ticker_info fd target_companies
              = Some r
              ∧ pbv_bvps r = Fin (total_equity / shares_outstanding fd))
  ∧ (∀ key dflt own,
       info fd !! key = Some own →
       average_multiple ticker_info key dflt fd None = own)
  ∧ (∀ shares,
       info fd !! "sharesOutstanding" = Some shares →
       shares_outstanding fd = shares).
Proof.
  split; [|split; [|split; [|split]]].
  - intros Hfalsy tk peers close Hfd Hlast.
    assert (Hprice : determine_current_price fd = Ok close).
    { unfold determine_current_price, iloc_last.
      destruct Hfalsy as [-> | (q & -> & Hq)].
      - by rewrite Hlast.
      - apply Qtruthy_false in Hq. by rewrite Hq, Hlast. }
    unfold perform_valuation. rewrite Hfd, Hprice. cbn [bind].
    eexists. split; reflexivity.
  - intros Hfalsy peers ni Hni Hs.
    assert (Heps : resolve_eps zero_division fd
                   = Ok (Fin (ni / shares_outstanding fd))).
    { unfold resolve_eps, eps_from_net_income.
      destruct Hfalsy as [-> | (q & -> & Hq)].
      - rewrite Hni. cbn [bind]. by apply div_Fin.
      - apply Qtruthy_false in Hq. rewrite Hq, Hni. cbn [bind].
        by apply div_Fin. }
    unfold pe_valuation. rewrite Heps. cbn [bind catch_all].
    eexists. split; reflexivity.
  - intros Hfalsy peers te Hte Hs.
    assert (Hbv : resolve_bvps zero_division fd
                  = Ok (Fin (te / shares_outstanding fd))).
    { unfold resolve_bvps, bvps_from_equity.
      destruct Hfalsy as [-> | (q & -> & Hq)].
      - rewrite Hte. cbn [bind]. by apply div_Fin.
      - apply Qtruthy_false in Hq. rewrite Hq, Hte. cbn [bind].
        by apply div_Fin. }
    unfold pbv_valuation. rewrite Hbv. cbn [bind catch_all].
    eexists. split; reflexivity.
  - intros key dflt own Hown. unfold average_multiple. by rewrite Hown.
  - intros shares Hs. unfold shares_outstanding. by rewrite Hs.
Qed.

Lemma falsy_profile_fields_fall_back_witness :
  ∃ rep, perform_valuation python_division Examples.only_zero_price
           Examples.no_info "ZERO" None = Ok (Some rep)
         ∧ current_price rep = 42%Q.
Proof.
  destruct (falsy_profile_fields_fall_back python_division
              Examples.only_zero_price Examples.no_info Examples.zero_price)
    as (Hprice & _).
  apply (Hprice (or_intror (ex_intro _ 0%Q (conj eq_refl (Qeq_refl 0))))
           "ZERO" None 42%Q); reflexivity.
Defined.

(** * Further properties of the code *)

(** ** Reading the user's answers ([main]) *)

Section TextLemmas.

Import Text TextFacts.

Lemma split_nonempty (sep : Ascii.ascii) (s : string) : split sep s ≠ [].
Proof.
  induction s as [|c s IH]; cbn [split]; [done|].
  destruct (Ascii.eqb c sep); [done|]. by destruct (split sep s).
Qed.



Lemma join_split (sep : Ascii.ascii) (s : string) : join sep (split sep s) = s.
Proof.
  induction s as [|c s IH]; cbn [split]; [done|].
  pose proof (split_nonempty sep s) as Hne.
  destruct (Ascii.eqb c sep) eqn:E.
  - apply Ascii.eqb_eq in E as ->.
    cbn [join]. destruct (split sep s) as [|p ps]; [done|].
    by rewrite IH.
  - destruct (split sep s) as [|p ps]; [done|].
    cbn [join] in *. destruct ps as [|p' ps'].
    + by rewrite IH.
    + rewrite <- IH. reflexivity.
Qed.









Lemma lower_char_y (c : Ascii.ascii) :
  lower_char c = "y"%char ↔ c = "y"%char ∨ c = "Y"%char.
Proof.
  split.
  - destruct c as [[] [] [] [] [] [] [] []]; vm_compute; intros H;
      try discriminate H; auto.
  - by intros [-> | ->].
Qed.

Lemma lower_is_y (s : string) : lower s = "y" ↔ s = "y" ∨ s = "Y".
Proof.
  split.
  - destruct s as [|c [|c' s]]; cbn [lower]; intros H; try discriminate H.
    injection H as H. apply lower_char_y in H as [-> | ->]; auto.
  - by intros [-> | ->].
Qed.

End TextLemmas.


(** Peers are used exactly when the answer is the single letter y or Y (the
    answer is not trimmed); the ticker is passed on as typed. *)
Theorem peers_only_after_y (ticker_symbol answer comparable_input : string) :
  main_request ticker_symbol answer comparable_input
  = (ticker_symbol,
     if decide (answer = "y" ∨ answer = "Y")
     then Some (parse_peers comparable_input)
     else None).
Proof.
  unfold main_request. f_equal.
  destruct (String.eqb (Text.lower answer) "y") eqn:E.
  - apply String.eqb_eq, lower_is_y in E. by rewrite decide_True.
  - rewrite decide_False; [done|].
    intros H%lower_is_y. apply String.eqb_neq in E. contradiction.
Qed.

(** ** The table of [display_valuation_results] *)

Section DisplayFacts.

Local Open Scope Q_scope.

Variable zero_division : num → res num.
Variable get_financial_data : string → option financial_data.
Variable ticker_info : string → res (gmap string Q).

Lemma diff_positive_iff (v price : Q) :
  0 < price → (0 < (v / price - 1) * 100 ↔ price < v).
Proof.
  intros Hp. assert (E : v / price * price == v) by (field; lra).
  split; intros H; nra.
Qed.

Lemma sequence_map_Ok {A B : Type} (f : A → res B) (g : A → B)
    (xs : list A) :
  (∀ x, f x = Ok (g x)) → sequence (map f xs) = Ok (map g xs).
Proof.
  intros Hfg. induction xs as [|x xs IH]; [reflexivity|].
  cbn [map sequence]. by rewrite Hfg, IH.
Qed.

Lemma make_row_nonzero (price : Q) (item : string * num) :
  ¬ price == 0 →
  make_row zero_division price item
  = Ok {| row_method := item.1;
          row_value := item.2;
          row_diff := nmul (nsub (ndiv_by item.2 price) (Fin 1)) (Fin 100);
          row_status :=
            if ngt (nmul (nsub (ndiv_by item.2 price) (Fin 1)) (Fin 100))
                 (Fin 0)
            then UNDERVALUED else OVERVALUED |}.
Proof. intros Hp. unfold make_row. by rewrite div_nonzero. Qed.

End DisplayFacts.

(** For a positive current price the label and the bar colour of a finite
    estimate agree: the row says UNDERVALUED, and the bar is green, exactly
    when the estimate is above the price; an estimate equal to the price is
    OVERVALUED and red.  The deviation shown is (estimate / price - 1)·100. *)
Theorem status_agrees_with_colour
    (zero_division : num → res num) (price : Q) (name : string) (v : Q) :
  (0 < price)%Q →
  ∃ row, make_row zero_division price (name, Fin v) = Ok row
         ∧ row_method row = name
         ∧ row_value row = Fin v
         ∧ row_diff row = Fin ((v / price - 1) * 100)
         ∧ (row_status row = UNDERVALUED ↔ (price < v)%Q)
         ∧ (row_status row = OVERVALUED ↔ (v <= price)%Q)
         ∧ (bar_colour price (name, Fin v) = green ↔ (price < v)%Q).
Proof.
  intros Hp. rewrite make_row_nonzero by lra. eexists. split; [reflexivity|].
  cbn [row_method row_value row_diff row_status fst snd ndiv_by nsub nmul].
  split; [done|]. split; [done|]. split; [done|].
  pose proof (ngt_Fin ((v / price - 1) * 100) 0) as Hgt.
  pose proof (diff_positive_iff v price Hp) as Hd.
  unfold bar_colour. cbn [snd]. pose proof (ngt_Fin v price) as Hc.
  destruct (ngt (Fin ((v / price - 1) * 100)) (Fin 0)) eqn:E1;
    destruct (ngt (Fin v) (Fin price)) eqn:E2.
  - assert (price < v)%Q by by apply Hc.
    repeat split; try done; intros; lra.
  - assert (price < v)%Q by (apply Hd, Hgt; done).
    apply Hc in H. congruence.
  - assert (price < v)%Q by by apply Hc.
    apply Hd, Hgt in H. congruence.
  - assert (Hn : ¬ (price < v)%Q) by (intros H; apply Hc in H; congruence).
    repeat split; try done; intros; lra.
Qed.

Lemma status_agrees_with_colour_witness :
  ∃ row, make_row python_division 50 ("P/BV", Fin 20) = Ok row
         ∧ (row_status row = OVERVALUED ↔ (20 <= 50)%Q).
Proof.
  destruct (status_agrees_with_colour python_division 50 "P/BV" 20)
    as (row & Hrow & _ & _ & _ & _ & Hover & _).
  - reflexivity.
  - exists row. split; [exact Hrow | exact Hover].
Defined.

(** With a current price that is not zero the table is always produced: one
    row per method of the report, in the report's order, then a row for the
    Average when the report has one, each with the method's value, and one
    bar colour per row. *)
Theorem display_lists_methods_then_average
    (zero_division : num → res num) (rep : report) :
  ¬ (current_price rep == 0)%Q →
  ∃ d, display_valuation_results zero_division (Some rep) = Ok (Table d)
       ∧ map row_method (rows d)
         = (map fst (methods rep)
            ++ match Average rep with Some _ => ["Average"] | None => [] end)%list
       ∧ map row_value (rows d)
         = (map snd (methods rep)
            ++ match Average rep with Some a => [a] | None => [] end)%list
       ∧ length (colours d) = length (rows d).
Proof.
  intros Hp. unfold display_valuation_results.
  erewrite sequence_map_Ok by (intros x; by apply make_row_nonzero).
  cbn [bind]. eexists. split; [reflexivity|]. cbn [rows colours].
  rewrite <- !list_fmap_compose, !length_map. unfold displayed_items.
  rewrite !fmap_app. destruct (Average rep); done.
Qed.

Lemma display_lists_methods_then_average_witness :
  ∃ d, display_valuation_results python_division
         (Some {| ticker := "SUBJ"; current_price := 50;
                  company_name := "SUBJ";
                  methods := [("P/E", Fin 0); ("P/BV", Fin 20)];
                  Average := Some (Fin 10) |}) = Ok (Table d)
       ∧ map row_method (rows d) = ["P/E"; "P/BV"; "Average"].
Proof.
  destruct (display_lists_methods_then_average python_division
              {| ticker := "SUBJ"; current_price := 50;
                 company_name := "SUBJ";
                 methods := [("P/E", Fin 0); ("P/BV", Fin 20)];
                 Average := Some (Fin 10) |})
    as (d & Hd & Hm & _).
  - vm_compute; lia.
  - exists d. split; [exact Hd | exact Hm].
Defined.

(** ** What leaves [perform_valuation] *)

Section AggregatorFacts.

Local Open Scope Q_scope.

Variable zero_division : num → res num.
Variable get_financial_data : string → option financial_data.
Variable ticker_info : string → res (gmap string Q).

Lemma iloc_last_raises (row : list Q) (e : exn) :
  iloc_last row = Raise e ↔ e = IndexError ∧ row = [].
Proof.
  unfold iloc_last. destruct (last row) as [v|] eqn:E.
  - split; [done|]. intros [_ ->]. done.
  - apply last_None in E as ->. split; [by intros [= <-] | by intros [-> _]].
Qed.

Lemma determine_current_price_raises (fd : financial_data) (e : exn) :
  determine_current_price fd = Raise e
  ↔ e = IndexError ∧ falsy (info fd !! "currentPrice") ∧ hist fd = [].
Proof.
  unfold determine_current_price, falsy.
  destruct (info fd !! "currentPrice") as [p|].
  - destruct (Qtruthy p) eqn:E.
    + split; [done|]. intros (_ & [? | (q & [= <-] & Hq)] & _); [done|].
      apply Qtruthy_false in Hq. congruence.
    + rewrite iloc_last_raises. apply Qtruthy_false in E.
      split; [intros [-> ->]; eauto 6 | by intros (-> & _ & ->)].
  - rewrite iloc_last_raises. split; [intros [-> ->]; auto | by intros (-> & _ & ->)].
Qed.

Lemma method_names_NoDup : NoDup method_names.
Proof. by apply (bool_decide_unpack _). Qed.

Lemma entries_sublist (v1 v2 v3 v4 v5 : option num) :
  map fst (entry "DCF" v1 ++ entry "P/E" v2 ++ entry "P/BV" v3
           ++ entry "EV/EBITDA" v4 ++ entry "Market Multiples" v5)%list
  `sublist_of` method_names.
Proof.
  unfold method_names.
  destruct v1, v2, v3, v4, v5; cbn [entry app map fst]; repeat constructor.
Qed.

End AggregatorFacts.

(** [perform_valuation] answers [None] exactly when the subject's fetch
    fails; it lets an exception out exactly when the fetch succeeds, the
    profile has no usable current price (absent or 0) and the price history
    is empty, and the exception is then [IndexError]; every report carries
    the ticker it was asked for, the profile's long name (the ticker when
    there is none) and the price found. *)
Theorem perform_valuation_outcomes
    (zero_division : num → res num)
    (get_financial_data : string → option financial_data)
    (ticker_info : string → res (gmap string Q))
    (ticker_symbol : string) (target_companies : option (list string)) :
  (perform_valuation zero_division get_financial_data ticker_info
     ticker_symbol target_companies = Ok None
   ↔ get_financial_data ticker_symbol = None)
  ∧ (∀ e,
       perform_valuation zero_division get_financial_data ticker_info
         ticker_symbol target_companies = Raise e
       ↔ e = IndexError
         ∧ ∃ fd, get_financial_data ticker_symbol = Some fd
                 ∧ falsy (info fd !! "currentPrice")
                 ∧ hist fd = [])
  ∧ (∀ rep,
       perform_valuation zero_division get_financial_data ticker_info
         ticker_symbol target_companies = Ok (Some rep) →
       ∃ fd, get_financial_data ticker_symbol = Some fd
             ∧ ticker rep = ticker_symbol
             ∧ company_name rep = default ticker_symbol (longName fd)
             ∧ determine_current_price fd = Ok (current_price rep)).
Proof.
  split; [|split].
  - unfold perform_valuation.
    destruct (get_financial_data ticker_symbol) as [fd|]; [|done].
    by destruct (determine_current_price fd).
  - intros e. rewrite perform_valuation_raises_iff. split.
    + intros (fd & Hfd & (-> & Hf & Hh)%determine_current_price_raises).
      eauto 6.
    + intros (-> & fd & Hfd & Hf & Hh). exists fd. split; [done|].
      by apply determine_current_price_raises.
  - intros rep. unfold perform_valuation.
    destruct (get_financial_data ticker_symbol) as [fd|]; [|done].
    destruct (determine_current_price fd) as [price|] eqn:Hp; [|done].
    cbn [bind]. intros [= <-]. exists fd. rewrite Hp.
    repeat split; reflexivity.
Qed.

(** A report lists exactly the methods that passed the aggregator's tests,
    in the fixed order DCF, P/E, P/BV, EV/EBITDA, Market Multiples and each
    at most once, with the per-share value the method returned; its Average
    is the mean of the listed values and is missing exactly when nothing is
    listed. *)
Theorem report_lists_passing_methods
    (zero_division : num → res num)
    (get_financial_data : string → option financial_data)
    (ticker_info : string → res (gmap string Q))
    (ticker_symbol : string) (target_companies : option (list string))
    (rep : report) :
  perform_valuation zero_division get_financial_data ticker_info
    ticker_symbol target_companies = Ok (Some rep) →
  ∃ fd, get_financial_data ticker_symbol = Some fd
        ∧ methods rep
          = (entry "DCF"
               (dcf_value_per_share <$> dcf_valuation_default zero_division fd)
             ++ entry "P/E"
                  (pe_value_per_share
                     <$> pe_valuation zero_division ticker_info fd
                           target_companies)
             ++ entry "P/BV"
                  (pbv_value_per_share
                     <$> pbv_valuation zero_division ticker_info fd
                           target_companies)
             ++ entry "EV/EBITDA"
                  (ev_ebitda_value_per_share
                     <$> ev_ebitda_valuation zero_division ticker_info fd
                           target_companies)
             ++ entry "Market Multiples"
                  (accepted_market_multiples zero_division get_financial_data
                     ticker_symbol target_companies))%list
        ∧ map fst (methods rep) `sublist_of` method_names
        ∧ NoDup (map fst (methods rep))
        ∧ (Average rep = None ↔ methods rep = [])
        ∧ (methods rep ≠ [] →
           Average rep = Some (nmean (map snd (methods rep)))).
Proof.
  intros Hrep.
  destruct (perform_valuation_average _ _ _ _ _ _ Hrep)
    as (fd & Hfd & Hm & Havg).
  exists fd. split; [done|].
  rewrite method_valuations_entries in Hm.
  split; [done|].
  assert (Hsub : map fst (methods rep) `sublist_of` method_names)
    by (rewrite Hm; apply entries_sublist).
  split; [done|].
  split; [eapply sublist_NoDup; [exact method_names_NoDup | exact Hsub]|].
  rewrite Havg. clear. destruct (methods rep) as [|m ms].
  - split; [done|]. by intros [].
  - split; [split; intros H; discriminate H | reflexivity].
Qed.

Lemma report_lists_passing_methods_witness :
  ∃ rep, perform_valuation python_division Examples.break_even_data
           Examples.break_even_info "SUBJ" (Some ["PEER"]) = Ok (Some rep)
         ∧ map fst (methods rep) `sublist_of` method_names.
Proof.
  eexists. split; [vm_compute; reflexivity|].
  destruct (report_lists_passing_methods python_division
              Examples.break_even_data Examples.break_even_info "SUBJ"
              (Some ["PEER"]) _ eq_refl)
    as (fd & _ & _ & Hsub & _).
  exact Hsub.
Defined.

(** Without peers ([None] or an empty list) [perform_valuation] looks at
    nothing but the subject's own dataset: no peer profile is requested and
    no other ticker is fetched, so the outcome is the same in every world
    that delivers the same dataset for the subject. *)
Theorem no_peers_no_lookups
    (zero_division : num → res num)
    (get_financial_data get_financial_data' : string → option financial_data)
    (ticker_info ticker_info' : string → res (gmap string Q))
    (ticker_symbol : string) (target_companies : option (list string)) :
  target_companies = None ∨ target_companies = Some [] →
  get_financial_data ticker_symbol = get_financial_data' ticker_symbol →
  perform_valuation zero_division get_financial_data ticker_info
    ticker_symbol target_companies
  = perform_valuation zero_division get_financial_data' ticker_info'
      ticker_symbol target_companies.
Proof.
  intros Hpeers Hsame. unfold perform_valuation. rewrite <- Hsame.
  destruct Hpeers as [-> | ->]; reflexivity.
Qed.

Lemma no_peers_no_lookups_witness :
  perform_valuation python_division MoreExamples.world_data
    MoreExamples.world_info "PEERA" None
  = perform_valuation python_division
      (λ t, if decide (t = "PEERA") then Some MoreExamples.peer_a else None)
      Examples.no_info "PEERA" None.
Proof.
  apply (no_peers_no_lookups python_division MoreExamples.world_data
           (λ t, if decide (t = "PEERA") then Some MoreExamples.peer_a
                 else None)
           MoreExamples.world_info Examples.no_info "PEERA" None).
  - left. reflexivity.
  - reflexivity.
Defined.

(** ** The ratio methods and their multiples *)

Section RatioFacts.

Local Open Scope Q_scope.

Variable zero_division : num → res num.
Variable ticker_info : string → res (gmap string Q).

Lemma peer_ratio_positive (key t : string) (q : Q) :
  peer_ratio ticker_info key t = Some q → 0 < q.
Proof.
  unfold peer_ratio. destruct (ticker_info t) as [i|]; [|done].
  destruct (i !! key) as [r|]; [|done].
  destruct (Qtruthy r && Qpositive r) eqn:E; [|done].
  intros [= <-]. by apply Qtruthy_positive.
Qed.

Lemma peer_ratios_all_positive (key : string) (peers : list string) :
  Forall (λ q, 0 < q) (peer_ratios ticker_info key peers).
Proof.
  unfold peer_ratios. induction peers as [|p peers IH]; [constructor|].
  cbn [omap list_omap].
  destruct (peer_ratio ticker_info key p) as [q|] eqn:E; [|exact IH].
  constructor; [by eapply peer_ratio_positive | exact IH].
Qed.

Lemma Qsum_positive (xs : list Q) (acc : Q) :
  Forall (λ q, 0 < q) xs → 0 <= acc → xs ≠ [] → 0 < fold_left Qplus xs acc.
Proof.
  revert acc. induction xs as [|x xs IH]; intros acc Hxs Hacc Hne; [done|].
  inversion Hxs; subst. cbn [fold_left].
  destruct xs as [|y ys]; [cbn; lra|].
  apply IH; [done | lra | done].
Qed.

Lemma Qmean_positive (xs : list Q) :
  Forall (λ q, 0 < q) xs → xs ≠ [] → 0 < Qmean xs.
Proof.
  intros Hxs Hne. unfold Qmean, Qsum.
  apply Qlt_shift_div_l.
  - destruct xs; [done|]. unfold Qlt. cbn. lia.
  - rewrite Qmult_0_l. apply Qsum_positive; [done | lra | done].
Qed.

Lemma peer_ratios_app (key : string) (l1 l2 : list string) :
  peer_ratios ticker_info key (l1 ++ l2)%list
  = (peer_ratios ticker_info key l1 ++ peer_ratios ticker_info key l2)%list.
Proof. unfold peer_ratios. apply omap_app. Qed.

Lemma average_multiple_of_ratios (key : string) (dflt : Q)
    (fd : financial_data) (peers : list string) :
  average_multiple ticker_info key dflt fd (Some peers)
  = match peer_ratios ticker_info key peers with
    | [] => default dflt (info fd !! key)
    | ratios => Qmean ratios
    end.
Proof. by destruct peers. Qed.

End RatioFacts.

(** Whenever at least one peer contributes a ratio, the multiple a ratio
    method applies (P/E, P/BV or EV/EBITDA) is strictly positive; a zero or
    negative multiple can only come from the subject's own profile. *)
Theorem peer_multiple_is_positive
    (ticker_info : string → res (gmap string Q))
    (key : string) (dflt : Q) (fd : financial_data) (peers : list string) :
  peer_ratios ticker_info key peers ≠ [] →
  (0 < average_multiple ticker_info key dflt fd (Some peers))%Q.
Proof.
  intros Hne. rewrite average_multiple_of_ratios.
  pose proof (peer_ratios_all_positive ticker_info key peers) as Hpos.
  destruct (peer_ratios ticker_info key peers) as [|q l]; [done|].
  by apply Qmean_positive.
Qed.

Lemma peer_multiple_is_positive_witness :
  (0 < average_multiple MoreExamples.world_info "trailingPE" 15
         MoreExamples.operating (Some ["PEERA"; "GONE"]))%Q.
Proof.
  apply (peer_multiple_is_positive MoreExamples.world_info "trailingPE" 15
           MoreExamples.operating ["PEERA"; "GONE"]).
  vm_compute. discriminate.
Defined.

(** A peer whose profile cannot be fetched changes nothing: wherever it
    stands in the peer list, the multiple of every ratio method is the one
    obtained without it. *)
Theorem failing_peer_is_ignored
    (ticker_info : string → res (gmap string Q))
    (key : string) (dflt : Q) (fd : financial_data)
    (before after : list string) (p : string) (e : exn) :
  ticker_info p = Raise e →
  average_multiple ticker_info key dflt fd (Some (before ++ p :: after)%list)
  = average_multiple ticker_info key dflt fd (Some (before ++ after)%list).
Proof.
  intros Hp. rewrite !average_multiple_of_ratios, !peer_ratios_app.
  replace (peer_ratios ticker_info key (p :: after))
    with (peer_ratios ticker_info key after); [done|].
  unfold peer_ratios. cbn [omap list_omap]. unfold peer_ratio at 2.
  by rewrite Hp.
Qed.

Lemma failing_peer_is_ignored_witness :
  average_multiple MoreExamples.world_info "trailingPE" 15
    MoreExamples.operating (Some (["PEERA"] ++ "GONE" :: [])%list)
  = average_multiple MoreExamples.world_info "trailingPE" 15
      MoreExamples.operating (Some (["PEERA"] ++ [])%list).
Proof.
  apply (failing_peer_is_ignored MoreExamples.world_info "trailingPE" 15
           MoreExamples.operating ["PEERA"] [] "GONE" KeyError).
  reflexivity.
Defined.

(** The P/BV method: once book value per share resolves, the method returns
    it times its multiple, and the multiple is the average (sum divided by
    count) of the peers' strictly positive price-to-book ratios when there is
    one, else the subject's own priceToBook, else 2.  With book value 8 a
    share and peers at 1, 0, unfetchable, 4 and without the field, the
    multiple is 5/2 and the result 20. *)
Theorem pbv_three_stage_fallback :
  (∀ (zero_division : num → res num)
     (ticker_info : string → res (gmap string Q)) (fd : financial_data)
     (target_companies : option (list string)) (bvps : num),
     resolve_bvps zero_division fd = Ok bvps →
     ∃ r, pbv_valuation zero_division ticker_info fd target_companies = Some r
          ∧ pbv_bvps r = bvps
          ∧ pbv_value_per_share r = nmul bvps (Fin (average_pbv r))
          ∧ let ratios :=
              positive_peer_multiples ticker_info "priceToBook"
                (default [] target_companies) in
            (ratios ≠ [] →
             (average_pbv r
              == foldr Qplus 0 ratios / inject_Z (Z.of_nat (length ratios)))%Q)
            ∧ (ratios = [] →
               ∀ own, info fd !! "priceToBook" = Some own →
                      average_pbv r = own)
            ∧ (ratios = [] →
               info fd !! "priceToBook" = None → average_pbv r = 2%Q))
  ∧ (positive_peer_multiples MoreExamples.peers_info "priceToBook"
       MoreExamples.five_peers = [1%Q; 4%Q]
     ∧ info MoreExamples.operating !! "bookValue" = Some 8%Q
     ∧ ∀ (zero_division : num → res num),
         ∃ r, pbv_valuation zero_division MoreExamples.peers_info
                MoreExamples.operating (Some MoreExamples.five_peers) = Some r
              ∧ (average_pbv r == 5 # 2)%Q
              ∧ num_eq (pbv_value_per_share r) (Fin 20)).
Proof.
  split.
  - intros zd ticker_info fd peers bvps Hb. unfold pbv_valuation.
    rewrite Hb. cbn [bind catch_all]. eexists. split; [reflexivity|].
    cbn [pbv_bvps pbv_value_per_share average_pbv].
    split; [done|]. split; [done|].
    rewrite average_multiple_stages.
    destruct (positive_peer_multiples _ _ _) as [|q l]; cbn zeta.
    + split; [done|]. split.
      * by intros _ own ->.
      * by intros _ ->.
    + split; [intros _; apply Qmean_sum_over_length|]. split; by intros [=].
  - split; [vm_compute; reflexivity|]. split; [reflexivity|]. intros zd.
    eexists. split; [vm_compute; reflexivity|].
    split; vm_compute; reflexivity.
Qed.

Lemma pbv_three_stage_fallback_witness :
  ∃ r, pbv_valuation python_division MoreExamples.peers_info
         MoreExamples.operating (Some MoreExamples.five_peers) = Some r
       ∧ (average_pbv r == (1 + 4) / 2)%Q
       ∧ pbv_value_per_share r = nmul (Fin 8) (Fin (average_pbv r)).
Proof.
  destruct (proj1 pbv_three_stage_fallback python_division
              MoreExamples.peers_info MoreExamples.operating
              (Some MoreExamples.five_peers) (Fin 8))
    as (r & Hr & _ & Hv & Hmean & _ & _).
  - reflexivity.
  - exists r. split; [exact Hr|]. split; [|exact Hv].
    cbn zeta in Hmean. cbn [default] in Hmean. unfold id in Hmean.
    rewrite (proj1 (proj2 pbv_three_stage_fallback)) in Hmean.
    rewrite Hmean by discriminate. vm_compute. reflexivity.
Defined.

(** The EV/EBITDA method: with EBITDA, cash and debt resolved and a share
    count that is not zero, enterprise value is EBITDA times the multiple
    (peers' mean, else own enterpriseToEbitda, else 10), equity value adds
    cash and subtracts debt, and the per-share value divides by the share
    count. *)
Theorem ev_ebitda_formula
    (zero_division : num → res num)
    (ticker_info : string → res (gmap string Q)) (fd : financial_data)
    (target_companies : option (list string)) (ebitda cash debt : Q) :
  resolve_ebitda fd = Ok ebitda →
  cash_and_debt (balance_sheet fd) = Ok (cash, debt) →
  ¬ (shares_outstanding fd == 0)%Q →
  ∃ r, ev_ebitda_valuation zero_division ticker_info fd target_companies
       = Some r
       ∧ ev_ebitda r = ebitda
       ∧ ev_enterprise_value r = Fin (ebitda * average_ev_ebitda r)
       ∧ ev_equity_value r
         = Fin (ebitda * average_ev_ebitda r + cash - debt)
       ∧ ev_ebitda_value_per_share r
         = Fin ((ebitda * average_ev_ebitda r + cash - debt)
                / shares_outstanding fd)
       ∧ average_ev_ebitda r
         = match positive_peer_multiples ticker_info "enterpriseToEbitda"
                   (default [] target_companies) with
           | [] => default 10%Q (info fd !! "enterpriseToEbitda")
           | ratios => Qmean ratios
           end.
Proof.
  intros He Hcd Hs. unfold ev_ebitda_valuation, per_share_of_ev.
  rewrite He. cbn [bind]. rewrite Hcd. cbn [bind nadd nsub].
  rewrite div_Fin by done. cbn [bind catch_all].
  eexists. split; [reflexivity|].
  cbn [ev_ebitda ev_enterprise_value ev_equity_value
       ev_ebitda_value_per_share average_ev_ebitda].
  repeat split; try done. apply average_multiple_stages.
Qed.

Lemma ev_ebitda_formula_witness :
  ∃ r, ev_ebitda_valuation python_division MoreExamples.world_info
         MoreExamples.operating (Some ["PEERA"]) = Some r
       ∧ ev_ebitda r = 500%Q
       ∧ ev_enterprise_value r = Fin (500 * average_ev_ebitda r).
Proof.
  destruct (ev_ebitda_formula python_division MoreExamples.world_info
              MoreExamples.operating (Some ["PEERA"]) 500 500 300)
    as (r & Hr & He & Hev & _).
  - reflexivity.
  - reflexivity.
  - vm_compute; lia.
  - exists r. split; [exact Hr|]. split; [exact He | exact Hev].
Defined.

(** ** The line-item resolvers *)

Section ResolverFacts.

Local Open Scope Q_scope.

Lemma loc_last_raises (stmt : gmap string (list Q)) (name : string) :
  (∃ e, loc_last stmt name = Raise e)
  ↔ stmt !! name = None ∨ stmt !! name = Some [].
Proof.
  unfold loc_last, loc. destruct (stmt !! name) as [row|]; cbn [bind].
  - unfold iloc_last. destruct (last row) as [v|] eqn:E.
    + split; [by intros [e ?]|]. intros [?|[= ->]]; done.
    + apply last_None in E as ->. split; eauto.
  - split; eauto.
Qed.

Lemma loc_last_or_zero_raises (stmt : gmap string (list Q)) (name : string) :
  (∃ e, loc_last_or_zero stmt name = Raise e) ↔ stmt !! name = Some [].
Proof.
  unfold loc_last_or_zero. destruct (stmt !! name) as [row|].
  - unfold iloc_last. destruct (last row) as [v|] eqn:E.
    + split; [by intros [e ?]|]. by intros [= ->].
    + apply last_None in E as ->. split; eauto.
  - split; [by intros [e ?] | done].
Qed.

End ResolverFacts.

(** Free cash flow is available exactly when Operating Cash Flow is; it
    never exceeds Operating Cash Flow: it is Operating Cash Flow minus the
    absolute value of Capital Expenditure (so the sign convention of the
    expenditure does not matter), and Operating Cash Flow itself when the
    expenditure cannot be read. *)
Theorem free_cash_flow_from_operating_cash_flow (cf : gmap string (list Q)) :
  (∀ e, free_cash_flow cf = Raise e
        ↔ loc_last cf "Operating Cash Flow" = Raise e)
  ∧ (∀ f, free_cash_flow cf = Ok f →
          ∃ ocf, loc_last cf "Operating Cash Flow" = Ok ocf
                 ∧ (f <= ocf)%Q
                 ∧ (∀ capex, loc_last cf "Capital Expenditure" = Ok capex →
                             f = (ocf - Qabs capex)%Q)
                 ∧ ((∃ e, loc_last cf "Capital Expenditure" = Raise e) →
                    f = ocf)).
Proof.
  unfold free_cash_flow, try_except. split.
  - intros e. destruct (loc_last cf "Operating Cash Flow") as [ocf|e'];
      cbn [bind]; [|done].
    by destruct (loc_last cf "Capital Expenditure").
  - intros f. destruct (loc_last cf "Operating Cash Flow") as [ocf|e'];
      cbn [bind]; [|done].
    destruct (loc_last cf "Capital Expenditure") as [capex|e']; cbn [bind].
    + intros [= <-]. exists ocf. split; [done|]. split.
      * pose proof (Qabs_nonneg capex). lra.
      * split; [by intros ? [= <-] | by intros [? ?]].
    + intros [= <-]. exists ocf. split; [done|]. split; [lra|].
      split; [done | done].
Qed.

(** Cash and debt are unavailable only because of an empty row: the lookup
    fails exactly when one of the two primary rows cannot be read and one of
    the two fallback rows is present but empty.  On a balance sheet without
    empty rows it always succeeds, with both primary values or with both
    fallback values (a missing fallback row counting 0). *)
Theorem cash_and_debt_unavailable_iff (bs : gmap string (list Q)) :
  ((∃ e, cash_and_debt bs = Raise e)
   ↔ ((∃ e, loc_last bs "Cash And Cash Equivalents" = Raise e)
      ∨ (∃ e, loc_last bs "Total Debt" = Raise e))
     ∧ (bs !! "Cash And Short Term Investments" = Some []
        ∨ bs !! "Long Term Debt" = Some []))
  ∧ ((∀ name, bs !! name ≠ Some []) →
     ∃ cash debt,
       cash_and_debt bs = Ok (cash, debt)
       ∧ ((loc_last bs "Cash And Cash Equivalents" = Ok cash
           ∧ loc_last bs "Total Debt" = Ok debt)
          ∨ (loc_last_or_zero bs "Cash And Short Term Investments" = Ok cash
             ∧ loc_last_or_zero bs "Long Term Debt" = Ok debt))).
Proof.
  assert (Hiff :
    (∃ e, cash_and_debt bs = Raise e)
    ↔ ((∃ e, loc_last bs "Cash And Cash Equivalents" = Raise e)
       ∨ (∃ e, loc_last bs "Total Debt" = Raise e))
      ∧ (bs !! "Cash And Short Term Investments" = Some []
         ∨ bs !! "Long Term Debt" = Some [])).
  { rewrite <- !loc_last_or_zero_raises. unfold cash_and_debt, try_except.
    destruct (loc_last bs "Cash And Cash Equivalents") as [c|e1];
      destruct (loc_last bs "Total Debt") as [d|e2]; cbn [bind];
      destruct (loc_last_or_zero bs "Cash And Short Term Investments")
        as [c'|e3];
      destruct (loc_last_or_zero bs "Long Term Debt") as [d'|e4];
      cbn [bind]; split;
      try (intros [e He]; discriminate He);
      try (intros [[[e He]|[e He]] _]; discriminate He);
      try (intros [_ [[e He]|[e He]]]; discriminate He);
      eauto 8. }
  split; [exact Hiff|].
  intros Hrows. unfold cash_and_debt, try_except in *.
  destruct (loc_last bs "Cash And Cash Equivalents") as [c|e1];
    destruct (loc_last bs "Total Debt") as [d|e2]; cbn [bind] in *;
    try (exists c, d; split; [reflexivity | left; done]);
    (destruct (loc_last_or_zero bs "Cash And Short Term Investments")
       as [c'|e3];
     [|exfalso; destruct Hiff as [Hiff _];
       destruct Hiff as (_ & [H|H]); [eauto | exact (Hrows _ H)
                                             | exact (Hrows _ H)]]);
    (destruct (loc_last_or_zero bs "Long Term Debt") as [d'|e4];
     [|exfalso; destruct Hiff as [Hiff _];
       destruct Hiff as (_ & [H|H]); [eauto | exact (Hrows _ H)
                                             | exact (Hrows _ H)]]);
    cbn [bind]; exists c', d'; (split; [reflexivity | right; done]).
Qed.

Lemma cash_and_debt_unavailable_iff_witness :
  ∃ cash debt,
    cash_and_debt Examples.cash_without_total_debt = Ok (cash, debt).
Proof.
  destruct (proj2 (cash_and_debt_unavailable_iff
                     Examples.cash_without_total_debt))
    as (cash & debt & H & _).
  - intros name. unfold Examples.cash_without_total_debt.
    destruct (decide (name = "Cash And Cash Equivalents")) as [->|?];
      [vm_compute; discriminate|].
    destruct (decide (name = "Long Term Debt")) as [->|?];
      [vm_compute; discriminate|].
    cbn [list_to_map foldr]. rewrite !lookup_insert_ne by done.
    rewrite lookup_empty. discriminate.
  - exists cash, debt. exact H.
Defined.

(** EBITDA is unavailable exactly when the EBIT route fails (no EBIT, or no
    depreciation figure in either statement) and the fallback fails as well
    (no Income Before Tax, or an Interest Expense row that is present but
    empty). *)
Theorem ebitda_unavailable_iff (fd : financial_data) :
  (∃ e, resolve_ebitda fd = Raise e)
  ↔ ((∃ e, loc_last (income_stmt fd) "EBIT" = Raise e)
     ∨ ((∃ e, loc_last (income_stmt fd) "Depreciation And Amortization"
              = Raise e)
        ∧ (∃ e, loc_last (cash_flow fd) "Depreciation" = Raise e)))
    ∧ ((∃ e, loc_last (income_stmt fd) "Income Before Tax" = Raise e)
       ∨ income_stmt fd !! "Interest Expense" = Some []).
Proof.
  unfold resolve_ebitda, try_except.
  destruct (loc_last (income_stmt fd) "EBIT") as [ebit|e1]; cbn [bind].
  - destruct (loc_last (income_stmt fd) "Depreciation And Amortization")
      as [da|e2]; cbn [bind].
    { split; [by intros [? ?]|]. by intros [[[? ?]|[[? ?] _]] _]. }
    destruct (loc_last (cash_flow fd) "Depreciation") as [dep|e3];
      cbn [bind].
    { split; [by intros [? ?]|]. by intros [[[? ?]|[_ [? ?]]] _]. }
    destruct (loc_last (income_stmt fd) "Income Before Tax") as [ibt|e4];
      cbn [bind]; [|split; eauto 10].
    destruct (income_stmt fd !! "Interest Expense") as [row|].
    + destruct (iloc_last row) as [i|e5] eqn:Hi; cbn [bind].
      * split; [by intros [? ?]|].
        intros [_ [[? ?]|[= ->]]]; [done | discriminate Hi].
      * apply iloc_last_raises in Hi as [-> ->]. split; eauto 10.
    + split; [by intros [? ?]|]. by intros [_ [[? ?]|?]].
  - destruct (loc_last (income_stmt fd) "Income Before Tax") as [ibt|e4];
      cbn [bind]; [|split; eauto 10].
    destruct (income_stmt fd !! "Interest Expense") as [row|].
    + destruct (iloc_last row) as [i|e5] eqn:Hi; cbn [bind].
      * split; [by intros [? ?]|].
        intros [_ [[? ?]|[= ->]]]; [done | discriminate Hi].
      * apply iloc_last_raises in Hi as [-> ->]. split; eauto 10.
    + split; [by intros [? ?]|]. by intros [_ [[? ?]|?]].
Qed.

(** When the EBIT route fails, EBITDA is Income Before Tax plus the
    absolute value of Interest Expense: an EBIT that is reported without any
    depreciation figure is not used, and the result is at least Income
    Before Tax, and equal to it when there is no Interest Expense row. *)
Theorem ebitda_fallback_at_least_income_before_tax (fd : financial_data)
    (ibt v : Q) :
  (∃ e, loc_last (income_stmt fd) "EBIT" = Raise e)
  ∨ ((∃ e, loc_last (income_stmt fd) "Depreciation And Amortization"
           = Raise e)
     ∧ (∃ e, loc_last (cash_flow fd) "Depreciation" = Raise e)) →
  loc_last (income_stmt fd) "Income Before Tax" = Ok ibt →
  resolve_ebitda fd = Ok v →
  (ibt <= v)%Q
  ∧ (income_stmt fd !! "Interest Expense" = None → v = ibt)
  ∧ (∀ interest, loc_last (income_stmt fd) "Interest Expense" = Ok interest →
                 v = (ibt + Qabs interest)%Q).
Proof.
  intros Hprimary Hibt. unfold resolve_ebitda, try_except. rewrite Hibt.
  assert (Hroute : ∃ e,
    (let* ebit := loc_last (income_stmt fd) "EBIT" in
     let* depreciation :=
       match loc_last (income_stmt fd) "Depreciation And Amortization" with
       | Ok v0 => Ok v0
       | Raise _ => loc_last (cash_flow fd) "Depreciation"
       end in
     Ok (ebit + depreciation)%Q) = Raise e).
  { destruct Hprimary as [[e ->]|[[e1 ->] [e2 ->]]]; cbn [bind].
    - by exists e.
    - destruct (loc_last (income_stmt fd) "EBIT"); cbn [bind]; eauto. }
  destruct Hroute as [e ->]. cbn [bind]. unfold loc_last, loc.
  destruct (income_stmt fd !! "Interest Expense") as [row|]; cbn [bind].
  - destruct (iloc_last row) as [i|e'] eqn:Hi; cbn [bind]; [|done].
    intros [= <-]. split; [pose proof (Qabs_nonneg i); lra|].
    split; [done | by intros ? [= <-]].
  - intros [= <-]. split; [lra|]. split; [done | done].
Qed.

Lemma ebitda_fallback_at_least_income_before_tax_witness :
  resolve_ebitda MoreExamples.pre_tax = Ok 350%Q ∧ (300 <= 350)%Q.
Proof.
  split; [reflexivity|].
  apply (ebitda_fallback_at_least_income_before_tax MoreExamples.pre_tax
           300%Q 350%Q).
  - right. split; exists KeyError; reflexivity.
  - reflexivity.
  - reflexivity.
Defined.

(** ** Discounted cash flow: shape and dependence on the balance sheet *)

Section DCFShape.

Lemma sequence_length {A : Type} (xs : list (res A)) (vs : list A) :
  sequence xs = Ok vs → length vs = length xs.
Proof.
  revert vs. induction xs as [|x xs IH]; intros vs; cbn [sequence].
  - by intros [= <-].
  - destruct x as [v|e]; cbn [bind]; [|done].
    destruct (sequence xs) as [vs'|e]; cbn [bind]; [|done].
    intros [= <-]. cbn [length]. by rewrite (IH vs').
Qed.

End DCFShape.

(** Whatever a division by zero does, a DCF result covers at least one
    year and lists one projected cash flow and one present value per
    projected year. *)
Theorem dcf_lists_one_entry_per_year (zero_division : num → res num)
    (fd : financial_data) (g dr tg : Q) (years : nat) (r : dcf_result) :
  dcf_valuation zero_division fd g dr tg years = Some r →
  (1 ≤ years)%nat
  ∧ length (projected_cash_flows r) = years
  ∧ length (present_values r) = years.
Proof.
  unfold dcf_valuation, dcf_body, catch_all.
  destruct (free_cash_flow (cash_flow fd)) as [f|]; cbn [bind]; [|done].
  destruct years as [|n]; [done|].
  destruct (list_last _) as [lf|]; cbn [bind]; [|done].
  destruct (div zero_division (Fin _) _) as [t|]; cbn [bind]; [|done].
  destruct (sequence _) as [pvs|] eqn:Hpvs; cbn [bind]; [|done].
  apply sequence_length in Hpvs.
  rewrite length_imap, length_map, length_seq in Hpvs.
  destruct (div zero_division _ _) as [pvt|]; cbn [bind]; [|done].
  destruct (cash_and_debt _) as [[c d]|]; cbn [bind]; [|done].
  destruct (div zero_division _ _) as [ps|]; cbn [bind]; [|done].
  intros Hr. apply (inj Some) in Hr. subst r.
  change (projected_cash_flows _)
    with (map (λ i : nat, (f * (1 + g) ^ Z.of_nat i)%Q) (seq 1 (S n))).
  change (present_values _) with pvs.
  rewrite length_map, length_seq. split; [lia|]. by split.
Qed.

Lemma dcf_lists_one_entry_per_year_witness :
  ∃ r, dcf_valuation_default numpy_division Examples.spec_example = Some r
       ∧ length (projected_cash_flows r) = 5%nat
       ∧ length (present_values r) = 5%nat.
Proof.
  destruct (dcf_valuation_default numpy_division Examples.spec_example)
    as [r|] eqn:E; [|vm_compute in E; discriminate E].
  exists r. split; [reflexivity|].
  exact (proj2 (dcf_lists_one_entry_per_year numpy_division
                  Examples.spec_example _ _ _ _ r E)).
Defined.

(** The enterprise value of the DCF method does not depend on the balance
    sheet, and its per-share value moves with cash and against debt: of two
    companies with the same cash flows and the same positive share count,
    the one with at least as much cash and at most as much debt has the same
    projected flows, terminal value and enterprise value, and neither a
    lower equity value nor a lower value per share. *)
Theorem dcf_value_monotone_in_cash_and_debt (zero_division : num → res num)
    (fd1 fd2 : financial_data) (g dr tg : Q) (years : nat)
    (c1 d1 c2 d2 : Q) :
  cash_flow fd1 = cash_flow fd2 →
  shares_outstanding fd1 = shares_outstanding fd2 →
  cash_and_debt (balance_sheet fd1) = Ok (c1, d1) →
  cash_and_debt (balance_sheet fd2) = Ok (c2, d2) →
  (∃ f, free_cash_flow (cash_flow fd1) = Ok f) →
  (1 ≤ years)%nat →
  ¬ (dr == tg)%Q → ¬ (1 + dr == 0)%Q → (0 < shares_outstanding fd1)%Q →
  (c1 <= c2)%Q → (d2 <= d1)%Q →
  ∃ r1 r2,
    dcf_valuation zero_division fd1 g dr tg years = Some r1
    ∧ dcf_valuation zero_division fd2 g dr tg years = Some r2
    ∧ projected_cash_flows r1 = projected_cash_flows r2
    ∧ terminal_value r1 = terminal_value r2
    ∧ dcf_enterprise_value r1 = dcf_enterprise_value r2
    ∧ ngt (dcf_equity_value r1) (dcf_equity_value r2) = false
    ∧ ngt (dcf_value_per_share r1) (dcf_value_per_share r2) = false.
Proof.
  intros Hcf Hsh Hcd1 Hcd2 [f Hf] Hy Hne Hdr Hpos Hc Hd.
  assert (Hf2 : free_cash_flow (cash_flow fd2) = Ok f) by by rewrite <- Hcf.
  destruct (dcf_valuation_resolved zero_division g dr tg fd1 years f c1 d1)
    as (r1 & Hr1 & Hpr1 & Htv1 & Hev1 & Heq1 & Hps1); try done; [lra|].
  destruct (dcf_valuation_resolved zero_division g dr tg fd2 years f c2 d2)
    as (r2 & Hr2 & Hpr2 & Htv2 & Hev2 & Heq2 & Hps2); try done;
    [rewrite <- Hsh; lra|].
  exists r1, r2. split; [exact Hr1|]. split; [exact Hr2|].
  split; [by rewrite Hpr1, Hpr2|]. split; [by rewrite Htv1, Htv2|].
  split; [by rewrite Hev1, Hev2|].
  rewrite Heq1, Heq2, Hps1, Hps2, <- Hsh.
  unfold Reference.per_share, Reference.equity_value.
  set (s := shares_outstanding fd1) in *.
  set (ev := Reference.enterprise_value f g dr tg years).
  split; apply not_true_is_false; rewrite ngt_Fin; [lra|].
  apply Qle_not_lt. unfold Qdiv. apply Qmult_le_compat_r; [lra|].
  apply Qlt_le_weak, Qinv_lt_0_compat, Hpos.
Qed.

Lemma dcf_value_monotone_in_cash_and_debt_witness :
  ∃ r1 r2,
    dcf_valuation_default python_division MoreExamples.operating = Some r1
    ∧ dcf_valuation_default python_division MoreExamples.operating_richer
      = Some r2
    ∧ dcf_enterprise_value r1 = dcf_enterprise_value r2
    ∧ ngt (dcf_value_per_share r1) (dcf_value_per_share r2) = false.
Proof.
  destruct (dcf_value_monotone_in_cash_and_debt python_division
              MoreExamples.operating MoreExamples.operating_richer
              default_growth_rate default_discount_rate
              default_terminal_growth_rate default_years
              500%Q 300%Q 750%Q 300%Q)
    as (r1 & r2 & H1 & H2 & _ & _ & Hev & _ & Hps).
  - reflexivity.
  - reflexivity.
  - reflexivity.
  - reflexivity.
  - exists 800%Q. reflexivity.
  - unfold default_years. lia.
  - vm_compute. lia.
  - vm_compute. lia.
  - reflexivity.
  - unfold Qle. simpl. lia.
  - unfold Qle. simpl. lia.
  - exists r1, r2. repeat split; assumption.
Defined.

(** ** The comparable-multiples method *)

Section DictFacts.

Context {A : Type}.

Lemma dict_get_None (k : string) (d : list (string * A)) :
  dict_get k d = None ↔ k ∉ map fst d.
Proof.
  induction d as [|[k' v] d IH]; cbn [dict_get map fst].
  - split; [intros _; apply not_elem_of_nil | done].
  - rewrite not_elem_of_cons. destruct (decide (k = k')) as [->|Hne].
    + split; [done | by intros [? _]].
    + rewrite IH. split; [by intros ? | by intros [_ ?]].
Qed.

Lemma dict_get_Some_elem (k : string) (v : A) (d : list (string * A)) :
  dict_get k d = Some v → (k, v) ∈ d.
Proof.
  induction d as [|[k' v'] d IH]; cbn [dict_get]; [done|].
  destruct (decide (k = k')) as [->|Hne].
  - intros [= ->]. apply list_elem_of_here.
  - intros H. apply list_elem_of_further, IH, H.
Qed.

Lemma dict_set_fresh (k : string) (v : A) (d : list (string * A)) :
  dict_get k d = None → dict_set k v d = (d ++ [(k, v)])%list.
Proof.
  induction d as [|[k' v'] d IH]; cbn [dict_get dict_set app]; [done|].
  destruct (decide (k = k')) as [->|Hne]; [done|].
  intros H. by rewrite IH.
Qed.

Lemma dict_set_same (k : string) (v : A) (d : list (string * A)) :
  dict_get k d = Some v → dict_set k v d = d.
Proof.
  induction d as [|[k' v'] d IH]; cbn [dict_get dict_set]; [done|].
  destruct (decide (k = k')) as [->|Hne].
  - by intros [= ->].
  - intros H. by rewrite IH.
Qed.

End DictFacts.

Section ComparableFacts.

Local Open Scope Q_scope.

Variable zero_division : num → res num.
Variable get_financial_data : string → option financial_data.

(** The loop that fills [comparable_data], started from any dict whose keys
    are distinct and whose values are what the fetch returns. *)
Lemma comparable_loop (l : list string) (acc : list (string * financial_data)) :
  NoDup (map fst acc) →
  (∀ t d, (t, d) ∈ acc → get_financial_data t = Some d) →
  let r :=
    fold_left
      (λ acc ticker,
         match get_financial_data ticker with
         | Some data => dict_set ticker data acc
         | None => acc
         end)
      l acc in
  NoDup (map fst r)
  ∧ ∀ t d, (t, d) ∈ r
           ↔ (t, d) ∈ acc ∨ (t ∈ l ∧ get_financial_data t = Some d).
Proof.
  revert acc. induction l as [|a l IH]; intros acc Hnd Hacc; cbn [fold_left].
  - split; [done|]. intros t d. split; [auto|].
    intros [?|[H _]]; [done | by apply elem_of_nil in H].
  - destruct (get_financial_data a) as [data|] eqn:Ha.
    + destruct (dict_get a acc) as [v|] eqn:Hg.
      * pose proof (Hacc _ _ (dict_get_Some_elem _ _ _ Hg)) as Hv.
        assert (v = data) as -> by congruence.
        rewrite (dict_set_same _ _ _ Hg).
        destruct (IH acc Hnd Hacc) as [Hnd' Hiff]. split; [done|].
        intros t d. rewrite Hiff, elem_of_cons. split.
        -- intros [?|[? ?]]; auto.
        -- intros [?|[[->|?] Ht]]; auto.
           left. assert (d = data) as -> by congruence.
           by apply dict_get_Some_elem.
      * rewrite (dict_set_fresh _ _ _ Hg).
        apply dict_get_None in Hg.
        destruct (IH (acc ++ [(a, data)])%list) as [Hnd' Hiff].
        { rewrite map_app. apply NoDup_app. split; [done|]. split.
          - intros x Hx. cbn. rewrite list_elem_of_singleton. by intros ->.
          - cbn. apply NoDup_singleton. }
        { intros t d. rewrite elem_of_app, list_elem_of_singleton.
          intros [?|[= -> ->]]; auto. }
        split; [done|]. intros t d.
        rewrite Hiff, elem_of_app, list_elem_of_singleton, elem_of_cons.
        split.
        -- intros [[?|[= -> ->]]|[? ?]]; auto.
        -- intros [?|[[->|?] Ht]]; auto.
           left. right. congruence.
    + destruct (IH acc Hnd Hacc) as [Hnd' Hiff]. split; [done|].
      intros t d. rewrite Hiff, elem_of_cons. split.
      * intros [?|[? ?]]; auto.
      * intros [?|[[->|?] Ht]]; auto. congruence.
Qed.

Lemma comparable_data_spec (peers : list string) :
  NoDup (map fst (comparable_data get_financial_data peers))
  ∧ ∀ t d, (t, d) ∈ comparable_data get_financial_data peers
           ↔ t ∈ peers ∧ get_financial_data t = Some d.
Proof.
  destruct (comparable_loop peers []) as [Hnd Hiff].
  - cbn. apply NoDup_nil_2.
  - intros t d H. by apply elem_of_nil in H.
  - split; [exact Hnd|]. intros t d. unfold comparable_data. rewrite Hiff.
    split; [|auto]. intros [H|?]; [by apply elem_of_nil in H | done].
Qed.

(** The values a metric collects are strictly positive. *)
Lemma metric_values_positive (key : string)
    (peers : list (string * financial_data)) :
  Forall (λ q, 0 < q) (metric_values key peers).
Proof.
  unfold metric_values. apply Forall_forall. intros q Hq.
  apply list_elem_of_omap in Hq as (p & _ & Hp).
  destruct (info p.2 !! key) as [ratio|]; [|done].
  destruct (Qtruthy ratio && Qpositive ratio) eqn:E; [|done].
  injection Hp as <-. by apply Qtruthy_positive.
Qed.

(** [average_metrics] as a list of entries. *)
Lemma peer_averages_items (peers : list (string * financial_data)) :
  peer_averages peers
  = (item "P/E" (average_of (metric_values "trailingPE" peers))
     ++ item "P/BV" (average_of (metric_values "priceToBook" peers))
     ++ item "EV/EBITDA" (average_of (metric_values "enterpriseToEbitda" peers))
     ++ item "EV/Sales"
          (average_of (metric_values "enterpriseToRevenue" peers)))%list.
Proof.
  unfold peer_averages, add_average, average_of.
  destruct (metric_values "trailingPE" peers);
    destruct (metric_values "priceToBook" peers);
    destruct (metric_values "enterpriseToEbitda" peers);
    destruct (metric_values "enterpriseToRevenue" peers); reflexivity.
Qed.

(** [valuations] as a list of entries: a metric has one when it has an
    average and its implied value could be computed. *)
Lemma implied_valuations_items (target_data : option financial_data)
    (o1 o2 o3 o4 : option Q) :
  implied_valuations zero_division target_data
    (item "P/E" o1 ++ item "P/BV" o2 ++ item "EV/EBITDA" o3
     ++ item "EV/Sales" o4)%list
  = (item "P/E" (o1 ≫= λ m, catch_all (implied_pe zero_division target_data m))
     ++ item "P/BV" (o2 ≫= λ m, catch_all (implied_pbv zero_division target_data m))
     ++ item "EV/EBITDA"
          (o3 ≫= λ m,
             catch_all (implied_ev_ebitda zero_division target_data m))
     ++ item "EV/Sales"
          (o4 ≫= λ m,
             catch_all (implied_ev_sales zero_division target_data m)))%list.
Proof.
  unfold implied_valuations, add_valuation, catch_all.
  destruct o1 as [m1|], o2 as [m2|], o3 as [m3|], o4 as [m4|];
    cbn [item app dict_get mbind option_bind];
    repeat (match goal with
            | |- context [decide (?a = ?b)] =>
                let d := eval vm_compute in (decide (a = b)) in
                change (decide (a = b)) with d; cbv iota
            end);
    repeat (match goal with
            | |- context [implied_pe ?z ?t ?m] =>
                destruct (implied_pe z t m)
            | |- context [implied_pbv ?z ?t ?m] =>
                destruct (implied_pbv z t m)
            | |- context [implied_ev_ebitda ?z ?t ?m] =>
                destruct (implied_ev_ebitda z t m)
            | |- context [implied_ev_sales ?z ?t ?m] =>
                destruct (implied_ev_sales z t m)
            end); reflexivity.
Qed.

Lemma items_sublist {B : Type} (o1 o2 o3 o4 : option B) :
  map fst (item "P/E" o1 ++ item "P/BV" o2 ++ item "EV/EBITDA" o3
           ++ item "EV/Sales" o4)%list
  `sublist_of` metric_names.
Proof.
  unfold metric_names.
  destruct o1, o2, o3, o4; cbn [item app map fst]; repeat constructor.
Qed.

Lemma items_bind_sublist {B C : Type} (o1 o2 o3 o4 : option B)
    (f1 f2 f3 f4 : B → option C) :
  map fst (item "P/E" (o1 ≫= f1) ++ item "P/BV" (o2 ≫= f2)
           ++ item "EV/EBITDA" (o3 ≫= f3) ++ item "EV/Sales" (o4 ≫= f4))%list
  `sublist_of`
  map fst (item "P/E" o1 ++ item "P/BV" o2 ++ item "EV/EBITDA" o3
           ++ item "EV/Sales" o4)%list.
Proof.
  destruct o1 as [b1|], o2 as [b2|], o3 as [b3|], o4 as [b4|];
    cbn [mbind option_bind];
    try destruct (f1 b1); try destruct (f2 b2); try destruct (f3 b3);
    try destruct (f4 b4); cbn [item app map fst]; repeat constructor.
Qed.

Lemma average_of_positive (values : list Q) (a : Q) :
  Forall (λ q, 0 < q) values → average_of values = Some a → 0 < a.
Proof.
  intros Hpos. unfold average_of. destruct values as [|v vs] eqn:E; [done|].
  intros [= <-]. by apply Qmean_positive.
Qed.

End ComparableFacts.

(** [comparable_data] holds every peer whose fetch succeeded, with the
    dataset fetched, exactly once, and nothing else. *)
Theorem comparable_data_keeps_fetched_peers_once
    (get_financial_data : string → option financial_data)
    (peers : list string) :
  NoDup (map fst (comparable_data get_financial_data peers))
  ∧ ∀ t d, (t, d) ∈ comparable_data get_financial_data peers
           ↔ t ∈ peers ∧ get_financial_data t = Some d.
Proof. apply comparable_data_spec. Qed.

(** Naming a peer a second time does not change the result of the
    comparable-multiples method. *)
Theorem market_multiples_ignores_repeated_peers
    (zero_division : num → res num)
    (get_financial_data : string → option financial_data)
    (ticker_symbol p : string) (before after : list string) :
  p ∈ before →
  market_multiples_valuation zero_division get_financial_data ticker_symbol
    (before ++ p :: after)%list
  = market_multiples_valuation zero_division get_financial_data ticker_symbol
      (before ++ after)%list.
Proof.
  intros Hp. unfold market_multiples_valuation.
  assert (comparable_data get_financial_data (before ++ p :: after)%list
          = comparable_data get_financial_data (before ++ after)%list) as ->;
    [|reflexivity].
  unfold comparable_data. rewrite !fold_left_app. cbn [fold_left].
  f_equal. fold (comparable_data get_financial_data before).
  destruct (get_financial_data p) as [d|] eqn:Hd; [|reflexivity].
  destruct (comparable_data_spec get_financial_data before) as [Hnd Hiff].
  apply dict_set_same.
  destruct (dict_get p (comparable_data get_financial_data before))
    as [v|] eqn:Hg.
  - apply dict_get_Some_elem, Hiff in Hg as [_ Hv]. congruence.
  - apply dict_get_None in Hg. exfalso. apply Hg.
    change (p ∈ fst <$> comparable_data get_financial_data before).
    apply list_elem_of_fmap. exists (p, d). split; [done|]. by apply Hiff.
Qed.

Lemma market_multiples_ignores_repeated_peers_witness :
  market_multiples_valuation python_division MoreExamples.world_data "OPCO"
    ["PEERA"; "PEERA"]
  = market_multiples_valuation python_division MoreExamples.world_data "OPCO"
      ["PEERA"].
Proof.
  apply (market_multiples_ignores_repeated_peers python_division
           MoreExamples.world_data "OPCO" "PEERA" ["PEERA"] []).
  apply list_elem_of_here.
Defined.

(** The comparable-multiples method always answers, whatever the fetches
    return: every failure inside it is caught metric by metric.  Its
    averages are strictly positive and keyed by metrics in the fixed order
    P/E, P/BV, EV/EBITDA, EV/Sales; a metric has an implied value only if it
    has an average; and the overall average is the mean of the implied
    values, missing exactly when there is none. *)
Theorem market_multiples_always_answers
    (zero_division : num → res num)
    (get_financial_data : string → option financial_data)
    (ticker_symbol : string) (target_companies : list string) :
  ∃ r,
    market_multiples_valuation zero_division get_financial_data
      ticker_symbol target_companies = Some r
    ∧ map fst (average_metrics r) `sublist_of` metric_names
    ∧ Forall (λ kv, (0 < kv.2)%Q) (average_metrics r)
    ∧ map fst (mm_valuations r) `sublist_of` map fst (average_metrics r)
    ∧ (average_valuation r = None ↔ mm_valuations r = [])
    ∧ (mm_valuations r ≠ [] →
       average_valuation r = Some (nmean (map snd (mm_valuations r)))).
Proof.
  unfold market_multiples_valuation, catch_all. eexists.
  split; [reflexivity|].
  cbn [average_metrics mm_valuations average_valuation].
  rewrite peer_averages_items, implied_valuations_items.
  split; [apply items_sublist|]. split.
  - rewrite !Forall_app. repeat split;
      (match goal with
       | |- Forall _ (item _ (average_of ?vs)) =>
           destruct (average_of vs) as [a|] eqn:E; cbn [item];
           [|constructor];
           repeat constructor;
           exact (average_of_positive vs a (metric_values_positive _ _) E)
       end).
  - split; [apply items_bind_sublist|].
    destruct (_ ++ _)%list as [|v vs]; split; try done.
Qed.

(** When the subject's own data cannot be fetched the method still returns
    the peers' averages, with no implied value and no overall average. *)
Theorem market_multiples_without_subject_data
    (zero_division : num → res num)
    (get_financial_data : string → option financial_data)
    (ticker_symbol : string) (target_companies : list string) :
  get_financial_data ticker_symbol = None →
  market_multiples_valuation zero_division get_financial_data
    ticker_symbol target_companies
  = Some {| average_metrics :=
              peer_averages
                (comparable_data get_financial_data target_companies);
            mm_valuations := [];
            average_valuation := None |}.
Proof.
  intros Ht. unfold market_multiples_valuation, catch_all. rewrite Ht.
  rewrite peer_averages_items, implied_valuations_items.
  by destruct (average_of _), (average_of _), (average_of _), (average_of _).
Qed.

Lemma market_multiples_without_subject_data_witness :
  ∃ r, market_multiples_valuation numpy_division MoreExamples.world_data
         "UNKNOWN" ["PEERA"] = Some r
       ∧ average_metrics r = [("P/E", 20%Q); ("P/BV", 3%Q); ("EV/EBITDA", 8%Q)]
       ∧ mm_valuations r = [] ∧ average_valuation r = None.
Proof.
  eexists. split.
  - apply (market_multiples_without_subject_data numpy_division
             MoreExamples.world_data "UNKNOWN" ["PEERA"]).
    reflexivity.
  - cbn [average_metrics mm_valuations average_valuation].
    split; [|split; reflexivity]. vm_compute. reflexivity.
Defined.

(** ** Availability of the ratio methods *)

(** With a share count that is not zero, whether a ratio method returns a
    result depends on the subject's own data only, never on the peers: P/E
    is unavailable exactly when trailingEPS is falsy and Net Income cannot
    be read, P/BV exactly when bookValue is falsy and Total Stockholder
    Equity cannot be read, EV/EBITDA exactly when EBITDA or cash and debt
    cannot be resolved. *)
Theorem ratio_methods_unavailable_iff
    (zero_division : num → res num)
    (ticker_info : string → res (gmap string Q)) (fd : financial_data)
    (target_companies : option (list string)) :
  ¬ (shares_outstanding fd == 0)%Q →
  (pe_valuation zero_division ticker_info fd target_companies = None
   ↔ falsy (info fd !! "trailingEPS")
     ∧ ∃ e, loc_last (income_stmt fd) "Net Income" = Raise e)
  ∧ (pbv_valuation zero_division ticker_info fd target_companies = None
     ↔ falsy (info fd !! "bookValue")
       ∧ ∃ e, loc_last (balance_sheet fd) "Total Stockholder Equity"
              = Raise e)
  ∧ (ev_ebitda_valuation zero_division ticker_info fd target_companies = None
     ↔ (∃ e, resolve_ebitda fd = Raise e)
       ∨ (∃ e, cash_and_debt (balance_sheet fd) = Raise e)).
Proof.
  intros Hs. split; [|split].
  - unfold pe_valuation, resolve_eps, eps_from_net_income, falsy, catch_all.
    destruct (info fd !! "trailingEPS") as [eps|].
    + destruct (Qtruthy eps) eqn:E; cbn [bind].
      * split; [done|]. intros [[?|(q & [= <-] & Hq)] _]; [done|].
        apply Qtruthy_false in Hq. congruence.
      * apply Qtruthy_false in E.
        destruct (loc_last (income_stmt fd) "Net Income") as [ni|e];
          cbn [bind].
        -- rewrite div_Fin by done. cbn [bind].
           split; [done | by intros [_ [? ?]]].
        -- split; [|done]. intros _. split; eauto.
    + destruct (loc_last (income_stmt fd) "Net Income") as [ni|e];
        cbn [bind].
      * rewrite div_Fin by done. cbn [bind].
        split; [done | by intros [_ [? ?]]].
      * split; [|done]. intros _. split; eauto.
  - unfold pbv_valuation, resolve_bvps, bvps_from_equity, falsy, catch_all.
    destruct (info fd !! "bookValue") as [bv|].
    + destruct (Qtruthy bv) eqn:E; cbn [bind].
      * split; [done|]. intros [[?|(q & [= <-] & Hq)] _]; [done|].
        apply Qtruthy_false in Hq. congruence.
      * apply Qtruthy_false in E.
        destruct (loc_last (balance_sheet fd) "Total Stockholder Equity")
          as [te|e]; cbn [bind].
        -- rewrite div_Fin by done. cbn [bind].
           split; [done | by intros [_ [? ?]]].
        -- split; [|done]. intros _. split; eauto.
    + destruct (loc_last (balance_sheet fd) "Total Stockholder Equity")
        as [te|e]; cbn [bind].
      * rewrite div_Fin by done. cbn [bind].
        split; [done | by intros [_ [? ?]]].
      * split; [|done]. intros _. split; eauto.
  - unfold ev_ebitda_valuation, per_share_of_ev, catch_all.
    destruct (resolve_ebitda fd) as [ebitda|e]; cbn [bind]; [|split; eauto].
    destruct (cash_and_debt (balance_sheet fd)) as [[c d]|e]; cbn [bind];
      [|split; eauto].
    cbn [nadd nsub]. rewrite div_Fin by done. cbn [bind].
    split; [done | by intros [[? ?]|[? ?]]].
Qed.

Lemma ratio_methods_unavailable_iff_witness :
  pe_valuation python_division MoreExamples.world_info MoreExamples.operating
    (Some ["PEERA"]) = None
  ∧ pbv_valuation python_division MoreExamples.world_info
      MoreExamples.operating (Some ["PEERA"]) ≠ None.
Proof.
  destruct (ratio_methods_unavailable_iff python_division
              MoreExamples.world_info MoreExamples.operating
              (Some ["PEERA"])) as (Hpe & Hpbv & _).
  - vm_compute. lia.
  - split.
    + apply Hpe. split; [by left | by exists KeyError].
    + intros H. apply Hpbv in H as [[H|(q & H & Hq)] _].
      * discriminate H.
      * injection H as <-. vm_compute in Hq. lia.
Defined.

(** ** The entry point *)

(** What [main] ends with.  It reports that no valuation could be made
    exactly when the subject's data cannot be fetched; it never prints the
    message of [display_valuation_results] for a missing report; it stops
    with the exception of the price lookup when there is no current price
    and no price history; and with a current price that is not zero it
    shows the table, one row per entry of the report. *)
Theorem main_outcomes
    (zero_division : num → res num)
    (get_financial_data : string → option financial_data)
    (ticker_info : string → res (gmap string Q))
    (ticker_symbol answer comparable_input : string) :
  let outcome :=
    main zero_division get_financial_data ticker_info
      ticker_symbol answer comparable_input in
  (outcome = Ok CannotValuate ↔ get_financial_data ticker_symbol = None)
  ∧ outcome ≠ Ok NoResults
  ∧ (∀ fd, get_financial_data ticker_symbol = Some fd →
           falsy (info fd !! "currentPrice") → hist fd = [] →
           outcome = Raise IndexError)
  ∧ (∀ fd price,
       get_financial_data ticker_symbol = Some fd →
       determine_current_price fd = Ok price → ¬ (price == 0)%Q →
       ∃ rep d,
         perform_valuation zero_division get_financial_data ticker_info
           ticker_symbol
           (main_request ticker_symbol answer comparable_input).2
         = Ok (Some rep)
         ∧ current_price rep = price
         ∧ outcome = Ok (Table d)
         ∧ map row_method (rows d) = map fst (displayed_items rep)
         ∧ map row_value (rows d) = map snd (displayed_items rep)).
Proof.
  cbn zeta. unfold main.
  change (main_request ticker_symbol answer comparable_input).1
    with ticker_symbol.
  set (peers := (main_request ticker_symbol answer comparable_input).2).
  unfold perform_valuation.
  destruct (get_financial_data ticker_symbol) as [fd|]; cbn [bind].
  - destruct (determine_current_price fd) as [price|e] eqn:Hprice;
      cbn [bind display_valuation_results current_price].
    + split; [|split; [|split]].
      * split; [|done]. by destruct (sequence _).
      * by destruct (sequence _).
      * intros ? [= <-] Hf Hh.
        assert (determine_current_price fd = Raise IndexError) as Hr
          by (apply determine_current_price_raises; done).
        congruence.
      * intros ? p [= <-] Hp' Hp. rewrite Hprice in Hp'.
        apply Ok_inj in Hp'. subst p.
        erewrite sequence_map_Ok
          by (intros x; by apply make_row_nonzero).
        cbn [bind]. do 2 eexists. split; [reflexivity|].
        split; [reflexivity|]. split; [reflexivity|].
        cbn [rows]. rewrite !map_map. split; reflexivity.
    + pose proof Hprice as Hraise.
      apply determine_current_price_raises in Hraise as (-> & Hf & Hh).
      split; [done|]. split; [done|]. split; [done|].
      intros ? p [= <-] Hp'. congruence.
  - split; [done|]. split; [done|]. split; intros; done.
Qed.

Lemma main_outcomes_witness :
  ∃ d, main python_division MoreExamples.world_data MoreExamples.world_info
         "OPCO" "Y" "PEERA, GONE" = Ok (Table d)
       ∧ map row_method (rows d)
         = ["DCF"; "P/BV"; "EV/EBITDA"; "Market Multiples"; "Average"].
Proof.
  destruct (main_outcomes python_division MoreExamples.world_data
              MoreExamples.world_info "OPCO" "Y" "PEERA, GONE")
    as (_ & _ & _ & H).
  destruct (H MoreExamples.operating 12%Q) as (rep & d & Hrep & _ & Hd & Hm & _).
  - reflexivity.
  - reflexivity.
  - vm_compute. lia.
  - exists d. split; [exact Hd|]. rewrite Hm.
    vm_compute in Hrep. injection Hrep as <-. reflexivity.
Defined.

(** ** The comparable-multiples method and the P/E method *)

Section AgreementFacts.

Variable get_financial_data : string → option financial_data.
Variable ticker_info : string → res (gmap string Q).

Lemma omap_cons {A B : Type} (f : A → option B) (a : A) (l : list A) :
  omap f (a :: l)
  = match f a with Some y => y :: omap f l | None => omap f l end.
Proof. reflexivity. Qed.

(** With distinct peers the loop appends the fetched peers in their order. *)
Lemma comparable_loop_distinct (l : list string)
    (acc : list (string * financial_data)) :
  NoDup l → (∀ t, t ∈ l → t ∉ map fst acc) →
  fold_left
    (λ acc ticker,
       match get_financial_data ticker with
       | Some data => dict_set ticker data acc
       | None => acc
       end)
    l acc
  = (acc ++ omap (λ t, pair t <$> get_financial_data t) l)%list.
Proof.
  revert acc. induction l as [|a l IH]; intros acc Hnd Hdisj.
  - cbn. by rewrite app_nil_r.
  - apply NoDup_cons in Hnd as [Ha Hnd]. cbn [fold_left].
    rewrite omap_cons.
    destruct (get_financial_data a) as [d|] eqn:Hd;
      cbn [fmap option_fmap option_map].
    + rewrite dict_set_fresh
        by (apply dict_get_None, Hdisj, list_elem_of_here).
      rewrite IH; [by rewrite <- app_assoc | done |].
      intros t Ht. rewrite map_app, elem_of_app. intros [H|H].
      * by apply (Hdisj t); [apply list_elem_of_further|].
      * cbn in H. apply list_elem_of_singleton in H as ->. done.
    + apply IH; [done|]. intros t Ht. apply Hdisj.
      by apply list_elem_of_further.
Qed.

(** When a peer's profile is the one of its dataset, both ways of
    collecting a ratio over distinct peers give the same list. *)
Lemma metric_values_peer_ratios (key : string) (peers : list string) :
  NoDup peers →
  (∀ t, t ∈ peers →
        match get_financial_data t with
        | Some d => ticker_info t = Ok (info d)
        | None => ∃ e, ticker_info t = Raise e
        end) →
  metric_values key (comparable_data get_financial_data peers)
  = peer_ratios ticker_info key peers.
Proof.
  intros Hnd Hworld. unfold comparable_data.
  rewrite comparable_loop_distinct
    by (done || (intros t _; apply not_elem_of_nil)).
  cbn [app]. clear Hnd. unfold metric_values, peer_ratios.
  induction peers as [|a peers IH]; [reflexivity|].
  rewrite !omap_cons. unfold peer_ratio at 1.
  pose proof (Hworld a (list_elem_of_here _ _)) as Ha.
  assert (IH' := IH (λ t Ht, Hworld t (list_elem_of_further _ _ _ Ht))).
  destruct (get_financial_data a) as [d|];
    cbn [fmap option_fmap option_map].
  - rewrite Ha, omap_cons. cbn [snd].
    destruct (info d !! key) as [ratio|]; [|exact IH'].
    destruct (Qtruthy ratio && Qpositive ratio); [|exact IH'].
    by rewrite IH'.
  - destruct Ha as [e ->]. exact IH'.
Qed.

End AgreementFacts.

(** The two P/E estimates agree.  When the peers are distinct, each peer's
    profile is the one of its dataset, and at least one peer has a strictly
    positive trailing P/E, the value the comparable-multiples method implies
    from P/E is the value the P/E method returns for the same peers: EPS
    times the mean of the peers' positive trailing P/E. *)
Theorem market_multiples_agrees_with_pe_method
    (zero_division : num → res num)
    (get_financial_data : string → option financial_data)
    (ticker_info : string → res (gmap string Q))
    (ticker_symbol : string) (fd : financial_data) (peers : list string)
    (eps : num) :
  NoDup peers →
  (∀ t, t ∈ peers →
        match get_financial_data t with
        | Some d => ticker_info t = Ok (info d)
        | None => ∃ e, ticker_info t = Raise e
        end) →
  peer_ratios ticker_info "trailingPE" peers ≠ [] →
  get_financial_data ticker_symbol = Some fd →
  resolve_eps zero_division fd = Ok eps →
  ∃ mm pe,
    market_multiples_valuation zero_division get_financial_data
      ticker_symbol peers = Some mm
    ∧ pe_valuation zero_division ticker_info fd (Some peers) = Some pe
    ∧ dict_get "P/E" (average_metrics mm) = Some (average_pe pe)
    ∧ dict_get "P/E" (mm_valuations mm) = Some (pe_value_per_share pe)
    ∧ pe_value_per_share pe
      = nmul eps (Fin (Qmean (peer_ratios ticker_info "trailingPE" peers))).
Proof.
  intros Hnd Hworld Hratios Hfd Heps.
  unfold market_multiples_valuation, pe_valuation, catch_all.
  rewrite Heps, Hfd. cbn [bind]. do 2 eexists.
  split; [reflexivity|]. split; [reflexivity|].
  cbn [average_metrics mm_valuations average_pe pe_value_per_share].
  rewrite peer_averages_items, implied_valuations_items.
  rewrite (metric_values_peer_ratios get_financial_data ticker_info
             "trailingPE" peers Hnd Hworld).
  assert (Havg : average_multiple ticker_info "trailingPE" 15 fd (Some peers)
                 = Qmean (peer_ratios ticker_info "trailingPE" peers)).
  { unfold average_multiple. destruct peers as [|p peers]; [done|].
    by destruct (peer_ratios ticker_info "trailingPE" (p :: peers)). }
  rewrite Havg.
  assert (Hof : average_of (peer_ratios ticker_info "trailingPE" peers)
                = Some (Qmean (peer_ratios ticker_info "trailingPE" peers))).
  { unfold average_of.
    by destruct (peer_ratios ticker_info "trailingPE" peers). }
  rewrite Hof. cbn [mbind option_bind]. unfold implied_pe at 1.
  cbn [subscript bind]. rewrite Heps. cbn [bind catch_all item app dict_get].
  rewrite !decide_True by reflexivity. done.
Qed.

Lemma market_multiples_agrees_with_pe_method_witness :
  ∃ mm pe,
    market_multiples_valuation python_division MoreExamples.earner_data
      "EARN" ["PEERA"; "GONE"] = Some mm
    ∧ pe_valuation python_division MoreExamples.earner_info
        MoreExamples.earner (Some ["PEERA"; "GONE"]) = Some pe
    ∧ dict_get "P/E" (mm_valuations mm) = Some (pe_value_per_share pe)
    ∧ pe_value_per_share pe = Fin 100.
Proof.
  destruct (market_multiples_agrees_with_pe_method python_division
              MoreExamples.earner_data MoreExamples.earner_info
              "EARN" MoreExamples.earner ["PEERA"; "GONE"] (Fin 5))
    as (mm & pe & Hmm & Hpe & _ & Hv & Hf).
  - apply (bool_decide_unpack _). reflexivity.
  - intros t Ht. apply elem_of_cons in Ht as [->|Ht]; [reflexivity|].
    apply list_elem_of_singleton in Ht as ->. by exists KeyError.
  - vm_compute. discriminate.
  - reflexivity.
  - reflexivity.
  - exists mm, pe. split; [exact Hmm|]. split; [exact Hpe|].
    split; [exact Hv|]. rewrite Hf. reflexivity.
Defined.
